(** * pms-python: the persistence layer (app/models.py, app/db.py,
    app/repository.py) as a shallow embedding.

    The store is the SQLite database behind [DATABASE_URL]; a session is the
    SQLAlchemy [Session] built by [SessionLocal] (autocommit off, autoflush
    off, expire_on_commit off).  Repository functions are state transformers
    over a session that either return a value or raise. *)

From Stdlib Require Import ZArith List String Ascii Bool Lia Permutation Sorted.
Import ListNotations.
Local Open Scope Z_scope.

(** ** Python strings *)

Module Py.

(** [str.isspace] on one character.  Strings are sequences of code points
    below 256; the white-space code points in that range are U+0009..U+000D,
    U+001C..U+0020, U+0085 and U+00A0. *)
Definition isspace (c : ascii) : bool :=
  let n := N_of_ascii c in
  (((9 <=? n) && (n <=? 13)) || ((28 <=? n) && (n <=? 32))
   || (n =? 133) || (n =? 160))%N.

Fixpoint lstrip (s : string) : string :=
  match s with
  | EmptyString => EmptyString
  | String c r => if isspace c then lstrip r else s
  end.

Fixpoint rstrip (s : string) : string :=
  match s with
  | EmptyString => EmptyString
  | String c r =>
      match rstrip r with
      | EmptyString => if isspace c then EmptyString else String c EmptyString
      | r' => String c r'
      end
  end.

(** [s.strip()] *)
Definition strip (s : string) : string := rstrip (lstrip s).

(** [x or ''] for [x : Optional[str]]: [None] and the empty string are falsy. *)
Definition or_empty (x : option string) : string :=
  match x with
  | Some (String c r) => String c r
  | _ => EmptyString
  end.

(** [x or None] for [x : str]. *)
Definition or_None (x : string) : option string :=
  match x with
  | EmptyString => None
  | String _ _ => Some x
  end.

(** [if x:] for [x : Optional[int]]: [None] and [0] are falsy. *)
Definition truthy (x : option Z) : bool :=
  match x with
  | Some n => negb (n =? 0)
  | None => false
  end.

End Py.

(** ** app/models.py: the four mapped classes *)

Module City.
Record t := mk { id : Z; name : string; state : option string; country : option string }.
End City.

Module Neighborhood.
Record t := mk { id : Z; name : string; city_id : Z }.
End Neighborhood.

Module Street.
Record t := mk { id : Z; name : string; neighborhood_id : Z }.
End Street.

Module PoliceStation.
Record t := mk { id : Z; name : string; city_id : option Z; address : option string }.
End PoliceStation.

(** ** The SQLite store *)

Module Sqlite.

(** One list of rows per table ([__tablename__]), in insertion order. *)
Record DB := mkDB {
  cities : list City.t;
  neighborhoods : list Neighborhood.t;
  streets : list Street.t;
  police_stations : list PoliceStation.t }.

Definition empty : DB := mkDB [] [] [] [].

Inductive table := Cities | Neighborhoods | Streets | PoliceStations.

Inductive constraint := UNIQUE | NOT_NULL | FOREIGN_KEY.

(** [id = Column(Integer, primary_key=True)] is an INTEGER PRIMARY KEY, an
    alias of the rowid.  No table sets [sqlite_autoincrement], so an INSERT
    without an id takes one more than the largest rowid in the table, and 1
    in an empty table.  (At the largest 64-bit rowid SQLite picks an unused
    one at random; stores that large are outside this model.) *)
Definition next_rowid (ids : list Z) : Z :=
  match ids with
  | [] => 1
  | i :: r => fold_right Z.max i r + 1
  end.

(** SQL [=] on two nullable values, which is also how a UNIQUE index compares
    them: NULL is distinct from every value, NULL included. *)
Definition sql_eq {A} (eqb : A -> A -> bool) (x y : option A) : bool :=
  match x, y with
  | Some a, Some b => eqb a b
  | _, _ => false
  end.

(** [UniqueConstraint("name", "state", "country")] *)
Definition uq_city_name_state_country (a b : City.t) : bool :=
  String.eqb (City.name a) (City.name b)
  && sql_eq String.eqb (City.state a) (City.state b)
  && sql_eq String.eqb (City.country a) (City.country b).

(** [UniqueConstraint("name", "city_id")] *)
Definition uq_neighborhood_name_city (a b : Neighborhood.t) : bool :=
  String.eqb (Neighborhood.name a) (Neighborhood.name b)
  && (Neighborhood.city_id a =? Neighborhood.city_id b).

(** [UniqueConstraint("name", "neighborhood_id")] *)
Definition uq_street_name_neighborhood (a b : Street.t) : bool :=
  String.eqb (Street.name a) (Street.name b)
  && (Street.neighborhood_id a =? Street.neighborhood_id b).

(** [UniqueConstraint("name", "city_id")], [city_id] nullable *)
Definition uq_police_station_name_city (a b : PoliceStation.t) : bool :=
  String.eqb (PoliceStation.name a) (PoliceStation.name b)
  && sql_eq Z.eqb (PoliceStation.city_id a) (PoliceStation.city_id b).

Definition has_city (db : DB) (i : Z) : bool :=
  existsb (fun c => City.id c =? i) (cities db).

Definition has_neighborhood (db : DB) (i : Z) : bool :=
  existsb (fun n => Neighborhood.id n =? i) (neighborhoods db).

(** [ForeignKey("cities.id")] on a nullable column: NULL references nothing. *)
Definition fk_city_opt (db : DB) (r : option Z) : bool :=
  match r with
  | Some i => has_city db i
  | None => true
  end.

(** [ORDER BY name]: BINARY collation, that is code point order.  Rows with
    equal names are kept in table order here; SQLite promises no order among
    them, and nothing below states one. *)
Fixpoint insert_by {A} (key : A -> string) (x : A) (l : list A) : list A :=
  match l with
  | [] => [x]
  | y :: r => if String.leb (key x) (key y) then x :: l else y :: insert_by key x r
  end.

Fixpoint order_by {A} (key : A -> string) (l : list A) : list A :=
  match l with
  | [] => []
  | x :: r => insert_by key x (order_by key r)
  end.

(** [DELETE FROM <table> WHERE id = ?] with the declared [ondelete] actions
    ([PRAGMA foreign_keys=ON]): neighborhoods follow their city and streets
    their neighborhood (CASCADE), a police station loses its city
    (SET NULL).  The actions run only when a parent row is really deleted. *)
Definition delete_row (r : table * Z) (db : DB) : DB :=
  match r with
  | (Streets, i) =>
      mkDB (cities db) (neighborhoods db)
           (filter (fun x => negb (Street.id x =? i)) (streets db))
           (police_stations db)
  | (PoliceStations, i) =>
      mkDB (cities db) (neighborhoods db) (streets db)
           (filter (fun x => negb (PoliceStation.id x =? i)) (police_stations db))
  | (Neighborhoods, i) =>
      mkDB (cities db)
           (filter (fun x => negb (Neighborhood.id x =? i)) (neighborhoods db))
           (if has_neighborhood db i
            then filter (fun x => negb (Street.neighborhood_id x =? i)) (streets db)
            else streets db)
           (police_stations db)
  | (Cities, i) =>
      if has_city db i then
        let gone := filter (fun n => Neighborhood.city_id n =? i) (neighborhoods db) in
        mkDB (filter (fun x => negb (City.id x =? i)) (cities db))
             (filter (fun n => negb (Neighborhood.city_id n =? i)) (neighborhoods db))
             (filter (fun x => negb (existsb (fun n => Neighborhood.id n =? Street.neighborhood_id x) gone))
                     (streets db))
             (map (fun p => if sql_eq Z.eqb (PoliceStation.city_id p) (Some i)
                            then PoliceStation.mk (PoliceStation.id p) (PoliceStation.name p)
                                                  None (PoliceStation.address p)
                            else p)
                  (police_stations db))
      else db
  end.

End Sqlite.

(** ** The SQLAlchemy session *)

Module Orm.
Import Sqlite.

(** Exceptions that cross the repository.  [IntegrityError] is
    [sqlalchemy.exc.IntegrityError]; [detail] is its [str()], of which the
    SQLite message is kept (the statement and parameters that SQLAlchemy
    appends are left out).  [OperationalError] stands for the other storage
    failures.  [KeyboardInterrupt] is the one listed exception that does not
    derive from [Exception]. *)
Inductive exn :=
| IntegrityError (c : constraint) (detail : string)
| OperationalError (detail : string)
| ValueError (msg : string)
| DuplicateError (msg : string)
| KeyboardInterrupt.

(** The two integrity errors SQLite answers an INSERT or UPDATE of these
    tables with. *)
Definition unique_failed (columns : string) : exn :=
  IntegrityError UNIQUE
    ("(sqlite3.IntegrityError) UNIQUE constraint failed: " ++ columns)%string.

Definition foreign_key_failed : exn :=
  IntegrityError FOREIGN_KEY "(sqlite3.IntegrityError) FOREIGN KEY constraint failed".

(** [isinstance(e, Exception)] *)
Definition is_Exception (e : exn) : bool :=
  match e with
  | KeyboardInterrupt => false
  | _ => true
  end.

(** [str(e)] *)
Definition str (e : exn) : string :=
  match e with
  | IntegrityError _ d => d
  | OperationalError d => d
  | ValueError m => m
  | DuplicateError m => m
  | KeyboardInterrupt => EmptyString
  end.

Inductive result (A : Type) :=
| Ok (a : A)
| Raise (e : exn).
Arguments Ok {A} a.
Arguments Raise {A} e.

(** Calls on the session that end or release a transaction, in order. *)
Inductive event := EvCommit | EvRollback | EvClose.

(** A session: the database as last committed, the database as the open
    transaction sees it (committed state plus flushed statements), the
    objects marked by [session.delete] and not flushed yet, whether
    [close] released the connection, and the calls made so far.

    The identity map is not part of the model: rows are values, so an object
    returned by a query is already a detached copy.  The model is meant for
    sessions used as every caller in app/gui.py uses them, one repository
    call (or a few list calls) per [get_session] scope. *)
Record Session := mkSession {
  committed : DB;
  tx : DB;
  deleted : list (table * Z);
  closed : bool;
  log : list event }.

(** [SessionLocal()] on a database whose committed content is [db]. *)
Definition SessionLocal (db : DB) : Session := mkSession db db [] false [].

Definition M (A : Type) : Type := Session -> Session * result A.

Definition ret {A} (a : A) : M A := fun s => (s, Ok a).

Definition raise {A} (e : exn) : M A := fun s => (s, Raise e).

Definition bind {A B} (m : M A) (k : A -> M B) : M B :=
  fun s =>
    match m s with
    | (s', Ok a) => k a s'
    | (s', Raise e) => (s', Raise e)
    end.

Declare Scope session_scope.
Delimit Scope session_scope with session.
Notation "x <- m ;; k" := (bind m (fun x => k))
  (at level 100, m at next level, right associativity) : session_scope.
Notation "m ;; k" := (bind m (fun _ => k))
  (at level 100, right associativity) : session_scope.
Local Open Scope session_scope.

Definition with_tx (s : Session) (db : DB) : Session :=
  mkSession (committed s) db (deleted s) (closed s) (log s).

(** The SELECT of a query or of [session.get].  autoflush is off, so the
    statement sees the transaction as flushed so far and pending deletions
    do not show.  Integer parameters are taken to fit SQLite's 64-bit
    INTEGER: sqlite3 refuses to bind a Python int outside that range with
    an OverflowError, which the model does not have.  Statements about an id
    or a filter that need not come from the store assume [int64] below. *)
Definition select {A} (q : DB -> A) : M A := fun s => (s, Ok (q (tx s))).

(** [for x in xs: session.expunge(x)]: the objects leave the identity map.
    The model keeps none, so nothing changes in it.  (On objects that the
    same session had marked for deletion the call would also drop the mark.
    What a list returns does not depend on that, and nothing below states
    what a unit of work commits after listing rows it had marked.) *)
Definition expunge_all {A} (xs : list A) : M unit := ret tt.

(** [session.get(m.City, city_id)] and its three siblings. *)
Definition get_city (i : Z) : M (option City.t) :=
  select (fun db => find (fun c => City.id c =? i) (cities db)).

Definition get_neighborhood (i : Z) : M (option Neighborhood.t) :=
  select (fun db => find (fun n => Neighborhood.id n =? i) (neighborhoods db)).

Definition get_street (i : Z) : M (option Street.t) :=
  select (fun db => find (fun x => Street.id x =? i) (streets db)).

Definition get_police_station (i : Z) : M (option PoliceStation.t) :=
  select (fun db => find (fun p => PoliceStation.id p =? i) (police_stations db)).

(** The unit of work emits the DELETEs of a flush children first. *)
Definition is_table (t : table) (r : table * Z) : bool :=
  match t, fst r with
  | Cities, Cities | Neighborhoods, Neighborhoods
  | Streets, Streets | PoliceStations, PoliceStations => true
  | _, _ => false
  end.

Definition delete_order (d : list (table * Z)) : list (table * Z) :=
  filter (is_table Streets) d ++ filter (is_table Neighborhoods) d
  ++ filter (is_table PoliceStations) d ++ filter (is_table Cities) d.

(** The DELETE statements of a flush, one after the other. *)
Definition flush_rows (d : list (table * Z)) (db : DB) : DB :=
  fold_left (fun db r => delete_row r db) d db.

(** The DELETE half of [session.flush()]. *)
Definition flush_deleted (s : Session) : Session :=
  mkSession (committed s) (flush_rows (delete_order (deleted s)) (tx s))
            [] (closed s) (log s).

(** [session.rollback()] *)
Definition rollback (s : Session) : Session :=
  mkSession (committed s) (committed s) [] (closed s) (log s ++ [EvRollback]).

(** [session.close()]: the connection goes back to the pool, which discards
    whatever transaction was still open. *)
Definition close (s : Session) : Session :=
  mkSession (committed s) (committed s) [] true (log s ++ [EvClose]).

(** A statement of a flush failed: the flush rolls the transaction back and
    the error leaves [session.flush()].  (The real session then refuses
    every further call until [rollback()]; nothing below goes on with a
    session after a failed flush other than by that rollback.) *)
Definition flush_failed {A} (e : exn) : M A :=
  fun s => (mkSession (committed s) (committed s) [] (closed s) (log s), Raise e).

(** [session.commit()]: flush what is pending, then COMMIT.  [io] is the
    failure, if any, with which the engine answers (a pending change made
    by the caller outside the repository that breaks a constraint, a locked
    or full database); the committed content is then left as it was. *)
Definition commit (io : option exn) : M unit :=
  fun s =>
    let s1 := flush_deleted s in
    match io with
    | Some e => (mkSession (committed s1) (tx s1) [] (closed s1) (log s1 ++ [EvCommit]), Raise e)
    | None => (mkSession (tx s1) (tx s1) [] (closed s1) (log s1 ++ [EvCommit]), Ok tt)
    end.

(** [session.add(x); session.flush()] for a new row: the INSERT (constraints
    checked by SQLite, id taken from the rowid), then the pending DELETEs.
    A parent id is a bound parameter too, and is taken to fit 64 bits. *)
Definition add_flush_city (name : string) (state country : option string) : M City.t :=
  fun s =>
    let db := tx s in
    let row := City.mk (next_rowid (map City.id (cities db))) name state country in
    if existsb (uq_city_name_state_country row) (cities db)
    then flush_failed (unique_failed "cities.name, cities.state, cities.country") s
    else (flush_deleted (with_tx s (mkDB (cities db ++ [row]) (neighborhoods db)
                                         (streets db) (police_stations db))), Ok row).

Definition add_flush_neighborhood (name : string) (city_id : Z) : M Neighborhood.t :=
  fun s =>
    let db := tx s in
    let row := Neighborhood.mk (next_rowid (map Neighborhood.id (neighborhoods db))) name city_id in
    if existsb (uq_neighborhood_name_city row) (neighborhoods db)
    then flush_failed (unique_failed "neighborhoods.name, neighborhoods.city_id") s
    else if negb (has_city db city_id)
    then flush_failed foreign_key_failed s
    else (flush_deleted (with_tx s (mkDB (cities db) (neighborhoods db ++ [row])
                                         (streets db) (police_stations db))), Ok row).

Definition add_flush_street (name : string) (neighborhood_id : Z) : M Street.t :=
  fun s =>
    let db := tx s in
    let row := Street.mk (next_rowid (map Street.id (streets db))) name neighborhood_id in
    if existsb (uq_street_name_neighborhood row) (streets db)
    then flush_failed (unique_failed "streets.name, streets.neighborhood_id") s
    else if negb (has_neighborhood db neighborhood_id)
    then flush_failed foreign_key_failed s
    else (flush_deleted (with_tx s (mkDB (cities db) (neighborhoods db)
                                         (streets db ++ [row]) (police_stations db))), Ok row).

Definition add_flush_police_station (name : string) (city_id : option Z)
  (address : option string) : M PoliceStation.t :=
  fun s =>
    let db := tx s in
    let row := PoliceStation.mk (next_rowid (map PoliceStation.id (police_stations db)))
                                name city_id address in
    if existsb (uq_police_station_name_city row) (police_stations db)
    then flush_failed (unique_failed "police_stations.name, police_stations.city_id") s
    else if negb (fk_city_opt db city_id)
    then flush_failed foreign_key_failed s
    else (flush_deleted (with_tx s (mkDB (cities db) (neighborhoods db) (streets db)
                                         (police_stations db ++ [row]))), Ok row).

(** Attribute assignment on a loaded object followed by [session.flush()]:
    the UPDATE of the row with that id (the UNIQUE index is checked against
    the other rows), then the pending DELETEs. *)
Definition flush_city (row : City.t) : M City.t :=
  fun s =>
    let db := tx s in
    if existsb (fun c => negb (City.id c =? City.id row) && uq_city_name_state_country row c)
               (cities db)
    then flush_failed (unique_failed "cities.name, cities.state, cities.country") s
    else (flush_deleted (with_tx s (mkDB
            (map (fun c => if City.id c =? City.id row then row else c) (cities db))
            (neighborhoods db) (streets db) (police_stations db))), Ok row).

Definition flush_neighborhood (row : Neighborhood.t) : M Neighborhood.t :=
  fun s =>
    let db := tx s in
    if existsb (fun n => negb (Neighborhood.id n =? Neighborhood.id row)
                         && uq_neighborhood_name_city row n) (neighborhoods db)
    then flush_failed (unique_failed "neighborhoods.name, neighborhoods.city_id") s
    else if negb (has_city db (Neighborhood.city_id row))
    then flush_failed foreign_key_failed s
    else (flush_deleted (with_tx s (mkDB (cities db)
            (map (fun n => if Neighborhood.id n =? Neighborhood.id row then row else n)
                 (neighborhoods db))
            (streets db) (police_stations db))), Ok row).

Definition flush_street (row : Street.t) : M Street.t :=
  fun s =>
    let db := tx s in
    if existsb (fun x => negb (Street.id x =? Street.id row)
                         && uq_street_name_neighborhood row x) (streets db)
    then flush_failed (unique_failed "streets.name, streets.neighborhood_id") s
    else if negb (has_neighborhood db (Street.neighborhood_id row))
    then flush_failed foreign_key_failed s
    else (flush_deleted (with_tx s (mkDB (cities db) (neighborhoods db)
            (map (fun x => if Street.id x =? Street.id row then row else x) (streets db))
            (police_stations db))), Ok row).

Definition flush_police_station (row : PoliceStation.t) : M PoliceStation.t :=
  fun s =>
    let db := tx s in
    if existsb (fun p => negb (PoliceStation.id p =? PoliceStation.id row)
                         && uq_police_station_name_city row p) (police_stations db)
    then flush_failed (unique_failed "police_stations.name, police_stations.city_id") s
    else if negb (fk_city_opt db (PoliceStation.city_id row))
    then flush_failed foreign_key_failed s
    else (flush_deleted (with_tx s (mkDB (cities db) (neighborhoods db) (streets db)
            (map (fun p => if PoliceStation.id p =? PoliceStation.id row then row else p)
                 (police_stations db)))), Ok row).

(** [session.delete(x)]: the object is marked, and with it everything the
    delete cascade of the relationships reaches.  [City.neighborhoods],
    [City.police_stations] and [Neighborhood.streets] are all declared
    [cascade="all, delete-orphan"]; each collection is loaded by a SELECT on
    the parent id when the cascade walks it. *)
Definition cascade_neighborhood (db : DB) (n : Neighborhood.t) : list (table * Z) :=
  (Neighborhoods, Neighborhood.id n)
  :: map (fun x => (Streets, Street.id x))
         (filter (fun x => Street.neighborhood_id x =? Neighborhood.id n) (streets db)).

Definition cascade_city (db : DB) (c : City.t) : list (table * Z) :=
  (Cities, City.id c)
  :: flat_map (cascade_neighborhood db)
              (filter (fun n => Neighborhood.city_id n =? City.id c) (neighborhoods db))
  ++ map (fun p => (PoliceStations, PoliceStation.id p))
         (filter (fun p => sql_eq Z.eqb (PoliceStation.city_id p) (Some (City.id c)))
                 (police_stations db)).

Definition mark_deleted (d : DB -> list (table * Z)) : M unit :=
  fun s => (mkSession (committed s) (tx s) (deleted s ++ d (tx s)) (closed s) (log s), Ok tt).

Definition delete_city_obj (c : City.t) : M unit :=
  mark_deleted (fun db => cascade_city db c).

Definition delete_neighborhood_obj (n : Neighborhood.t) : M unit :=
  mark_deleted (fun db => cascade_neighborhood db n).

Definition delete_street_obj (x : Street.t) : M unit :=
  mark_deleted (fun _ => [(Streets, Street.id x)]).

Definition delete_police_station_obj (p : PoliceStation.t) : M unit :=
  mark_deleted (fun _ => [(PoliceStations, PoliceStation.id p)]).

End Orm.

(** ** app/repository.py *)

Module Repository.
Import Sqlite Orm.
Local Open Scope session_scope.

(** How control leaves the body of [with get_session() as s:]: by reaching
    its end, by a [return] of the enclosing function, or by an exception.
    The first two reach the generator's [__exit__] with no exception. *)
Inductive leave (A : Type) :=
| Completed (a : A)
| Returned (a : A)
| Raised (e : exn).
Arguments Completed {A} a.
Arguments Returned {A} a.
Arguments Raised {A} e.

(** A body that consists of one repository call. *)
Definition block {A} (op : M A) : Session -> Session * leave A :=
  fun s =>
    match op s with
    | (s', Ok a) => (s', Completed a)
    | (s', Raise e) => (s', Raised e)
    end.

(** [get_session]: the [try] runs the body and then [session.commit()];
    [except Exception] rolls back and re-raises; [finally] closes. *)
Definition get_session {A} (io : option exn) (body : Session -> Session * leave A)
  (db : DB) : Session * leave A :=
  let session := SessionLocal db in
  let '(s1, r) :=
    match body session with
    | (s, Raised e) => (s, Raised e)
    | (s, r) =>
        match commit io s with
        | (s', Ok _) => (s', r)
        | (s', Raise e) => (s', Raised e)
        end
    end in
  let s2 :=
    match r with
    | Raised e => if is_Exception e then rollback s1 else s1
    | _ => s1
    end in
  (close s2, r).

(** Cities *)

Definition list_cities : M (list City.t) :=
  cities <- select (fun db => order_by City.name (Sqlite.cities db)) ;;
  expunge_all cities ;;
  ret cities.

Definition create_city (name : string) (state country : option string) : M City.t :=
  add_flush_city (Py.strip name)
                 (Py.or_None (Py.strip (Py.or_empty state)))
                 (Py.or_None (Py.strip (Py.or_empty country))).

Definition update_city (city_id : Z) (name : string) (state country : option string)
  : M City.t :=
  city <- get_city city_id ;;
  match city with
  | None => raise (ValueError "City not found")
  | Some c =>
      flush_city (City.mk (City.id c) (Py.strip name)
                          (Py.or_None (Py.strip (Py.or_empty state)))
                          (Py.or_None (Py.strip (Py.or_empty country))))
  end.

Definition delete_city (city_id : Z) : M unit :=
  city <- get_city city_id ;;
  match city with
  | None => raise (ValueError "City not found")
  | Some c => delete_city_obj c
  end.

(** Neighborhoods *)

Definition list_neighborhoods (city_id : option Z) : M (list Neighborhood.t) :=
  nbs <- select (fun db =>
    let q := neighborhoods db in
    let q := if Py.truthy city_id
             then filter (fun n => sql_eq Z.eqb (Some (Neighborhood.city_id n)) city_id) q
             else q in
    order_by Neighborhood.name q) ;;
  expunge_all nbs ;;
  ret nbs.

Definition create_neighborhood (name : string) (city_id : Z) : M Neighborhood.t :=
  add_flush_neighborhood (Py.strip name) city_id.

Definition update_neighborhood (nb_id : Z) (name : string) (city_id : Z)
  : M Neighborhood.t :=
  nb <- get_neighborhood nb_id ;;
  match nb with
  | None => raise (ValueError "Neighborhood not found")
  | Some n => flush_neighborhood (Neighborhood.mk (Neighborhood.id n) (Py.strip name) city_id)
  end.

Definition delete_neighborhood (nb_id : Z) : M unit :=
  nb <- get_neighborhood nb_id ;;
  match nb with
  | None => raise (ValueError "Neighborhood not found")
  | Some n => delete_neighborhood_obj n
  end.

(** Streets *)

Definition list_streets (neighborhood_id : option Z) : M (list Street.t) :=
  sts <- select (fun db =>
    let q := streets db in
    let q := if Py.truthy neighborhood_id
             then filter (fun x => sql_eq Z.eqb (Some (Street.neighborhood_id x)) neighborhood_id) q
             else q in
    order_by Street.name q) ;;
  expunge_all sts ;;
  ret sts.

Definition create_street (name : string) (neighborhood_id : Z) : M Street.t :=
  add_flush_street (Py.strip name) neighborhood_id.

Definition update_street (st_id : Z) (name : string) (neighborhood_id : Z) : M Street.t :=
  st <- get_street st_id ;;
  match st with
  | None => raise (ValueError "Street not found")
  | Some x => flush_street (Street.mk (Street.id x) (Py.strip name) neighborhood_id)
  end.

Definition delete_street (st_id : Z) : M unit :=
  st <- get_street st_id ;;
  match st with
  | None => raise (ValueError "Street not found")
  | Some x => delete_street_obj x
  end.

(** Police Stations *)

Definition list_police_stations (city_id : option Z) : M (list PoliceStation.t) :=
  pss <- select (fun db =>
    let q := police_stations db in
    let q := if Py.truthy city_id
             then filter (fun p => sql_eq Z.eqb (PoliceStation.city_id p) city_id) q
             else q in
    order_by PoliceStation.name q) ;;
  expunge_all pss ;;
  ret pss.

Definition create_police_station (name : string) (city_id : option Z)
  (address : option string) : M PoliceStation.t :=
  add_flush_police_station (Py.strip name) city_id
                           (Py.or_None (Py.strip (Py.or_empty address))).

Definition update_police_station (ps_id : Z) (name : string) (city_id : option Z)
  (address : option string) : M PoliceStation.t :=
  ps <- get_police_station ps_id ;;
  match ps with
  | None => raise (ValueError "Police station not found")
  | Some p =>
      flush_police_station (PoliceStation.mk (PoliceStation.id p) (Py.strip name) city_id
                              (Py.or_None (Py.strip (Py.or_empty address))))
  end.

Definition delete_police_station (ps_id : Z) : M unit :=
  ps <- get_police_station ps_id ;;
  match ps with
  | None => raise (ValueError "Police station not found")
  | Some p => delete_police_station_obj p
  end.

(** [commit_with_integrity_handling]: an [IntegrityError] of the commit is
    answered by a rollback and [DuplicateError(str(e))]; anything else
    leaves the function as the commit raised it. *)
Definition commit_with_integrity_handling (io : option exn) : M unit :=
  fun s =>
    match commit io s with
    | (s', Raise (IntegrityError c d)) =>
        (rollback s', Raise (DuplicateError (str (IntegrityError c d))))
    | (s', r) => (s', r)
    end.

End Repository.

Import Sqlite Orm Repository.

(** A small store for the examples: two cities, each with a neighborhood, a
    street and a police station, and one station attached to no city. *)
Definition springfield : DB :=
  mkDB [City.mk 1 "Springfield" (Some "IL"%string) (Some "US"%string);
        City.mk 2 "Shelbyville" None None]
       [Neighborhood.mk 1 "Downtown" 1; Neighborhood.mk 2 "Uptown" 2]
       [Street.mk 1 "Main St" 1; Street.mk 2 "Elm St" 2]
       [PoliceStation.mk 1 "Central" (Some 1) None;
        PoliceStation.mk 2 "North" (Some 2) (Some "1 Elm St"%string);
        PoliceStation.mk 3 "Mobile" None None].

(** ** Vocabulary of the statements *)

Fixpoint all_space (s : string) : bool :=
  match s with
  | EmptyString => true
  | String c r => Py.isspace c && all_space r
  end.

Definition first_char (s : string) : option ascii :=
  match s with
  | EmptyString => None
  | String c _ => Some c
  end.

Fixpoint last_char (s : string) : option ascii :=
  match s with
  | EmptyString => None
  | String c EmptyString => Some c
  | String _ r => last_char r
  end.

Definition no_space (c : option ascii) : Prop :=
  match c with
  | Some a => Py.isspace a = false
  | None => True
  end.

(** [out] is [inp] without its leading and trailing white space. *)
Definition Trimmed (inp out : string) : Prop :=
  exists pre post,
    inp = (pre ++ out ++ post)%string
    /\ all_space pre = true /\ all_space post = true
    /\ no_space (first_char out) /\ no_space (last_char out).

(** The range of SQLite's INTEGER, outside of which sqlite3 binds no
    parameter. *)
Definition int64 (i : Z) : Prop := - 2 ^ 63 <= i < 2 ^ 63.

Definition opt_int64 (f : option Z) : Prop := forall p, f = Some p -> int64 p.

(** The failures the storage layer answers a statement with. *)
Definition integrity_failure (e : exn) : Prop :=
  exists c d, e = IntegrityError c d.

(** The stored form of an optional text field. *)
Definition norm_opt (x : option string) : option string :=
  Py.or_None (Py.strip (Py.or_empty x)).

(** The session a unit of work leaves behind when it failed and rolled back
    on store [db], and when it committed store [db]. *)
Definition rolled_back (db : DB) : Session :=
  mkSession db db [] true [EvRollback; EvClose].

Definition committed_as (db : DB) : Session :=
  mkSession db db [] true [EvCommit; EvClose].

(** The store a unit of work leaves behind, and what it hands back. *)
Definition store_after {A} (r : Session * leave A) : DB := committed (fst r).

Definition outcome {A} (r : Session * leave A) : leave A := snd r.

(** ** Invariants of a store, and the stores a driver can reach *)

(** [ORDER BY name] as a relation on rows. *)
Definition name_le {A} (key : A -> string) (a b : A) : Prop :=
  String.leb (key a) (key b) = true.

(** PRIMARY KEY: the ids of a table are pairwise different; as rowids given
    out by SQLite they are also positive. *)
Definition keys_ok (ids : list Z) : Prop :=
  NoDup ids /\ forall i, In i ids -> 1 <= i.

Definition primary_keys (db : DB) : Prop :=
  keys_ok (map City.id (cities db))
  /\ keys_ok (map Neighborhood.id (neighborhoods db))
  /\ keys_ok (map Street.id (streets db))
  /\ keys_ok (map PoliceStation.id (police_stations db)).

(** FOREIGN KEY: every parent reference resolves. *)
Definition references (db : DB) : Prop :=
  (forall n, In n (neighborhoods db) -> has_city db (Neighborhood.city_id n) = true)
  /\ (forall x, In x (streets db) -> has_neighborhood db (Street.neighborhood_id x) = true)
  /\ (forall p, In p (police_stations db) -> fk_city_opt db (PoliceStation.city_id p) = true).

(** UNIQUE: two rows that the index finds equal are one row. *)
Definition unique_rows {A} (id : A -> Z) (uq : A -> A -> bool) (l : list A) : Prop :=
  forall a b, In a l -> In b l -> uq a b = true -> id a = id b.

Definition uniques (db : DB) : Prop :=
  unique_rows City.id uq_city_name_state_country (cities db)
  /\ unique_rows Neighborhood.id uq_neighborhood_name_city (neighborhoods db)
  /\ unique_rows Street.id uq_street_name_neighborhood (streets db)
  /\ unique_rows PoliceStation.id uq_police_station_name_city (police_stations db).

(** Every stored text field is in the form the repository stores it in. *)
Definition normalized (db : DB) : Prop :=
  (forall c, In c (cities db) ->
     Py.strip (City.name c) = City.name c
     /\ norm_opt (City.state c) = City.state c
     /\ norm_opt (City.country c) = City.country c)
  /\ (forall n, In n (neighborhoods db) -> Py.strip (Neighborhood.name n) = Neighborhood.name n)
  /\ (forall x, In x (streets db) -> Py.strip (Street.name x) = Street.name x)
  /\ (forall p, In p (police_stations db) ->
      Py.strip (PoliceStation.name p) = PoliceStation.name p
      /\ norm_opt (PoliceStation.address p) = PoliceStation.address p).

(** The mutating calls of app/gui.py: every handler ([add_city], [edit_city],
    [delete_city], ...) opens one [get_session] scope around one repository
    call, and shows the error if the scope raises.  Parent references are
    ids, as the signatures of the repository functions have them. *)
Inductive request :=
| CreateCity (name : string) (state country : option string)
| UpdateCity (city_id : Z) (name : string) (state country : option string)
| DeleteCity (city_id : Z)
| CreateNeighborhood (name : string) (city_id : Z)
| UpdateNeighborhood (nb_id : Z) (name : string) (city_id : Z)
| DeleteNeighborhood (nb_id : Z)
| CreateStreet (name : string) (neighborhood_id : Z)
| UpdateStreet (st_id : Z) (name : string) (neighborhood_id : Z)
| DeleteStreet (st_id : Z)
| CreatePoliceStation (name : string) (city_id : option Z) (address : option string)
| UpdatePoliceStation (ps_id : Z) (name : string) (city_id : option Z)
                      (address : option string)
| DeletePoliceStation (ps_id : Z).

(** The store after the handler of [q] ran on [db]; [io] is the answer of the
    engine to the commit. *)
Definition serve (io : option exn) (q : request) (db : DB) : DB :=
  match q with
  | CreateCity n s c => store_after (get_session io (block (create_city n s c)) db)
  | UpdateCity i n s c => store_after (get_session io (block (update_city i n s c)) db)
  | DeleteCity i => store_after (get_session io (block (delete_city i)) db)
  | CreateNeighborhood n c => store_after (get_session io (block (create_neighborhood n c)) db)
  | UpdateNeighborhood i n c =>
      store_after (get_session io (block (update_neighborhood i n c)) db)
  | DeleteNeighborhood i => store_after (get_session io (block (delete_neighborhood i)) db)
  | CreateStreet n b => store_after (get_session io (block (create_street n b)) db)
  | UpdateStreet i n b => store_after (get_session io (block (update_street i n b)) db)
  | DeleteStreet i => store_after (get_session io (block (delete_street i)) db)
  | CreatePoliceStation n c a =>
      store_after (get_session io (block (create_police_station n c a)) db)
  | UpdatePoliceStation i n c a =>
      store_after (get_session io (block (update_police_station i n c a)) db)
  | DeletePoliceStation i =>
      store_after (get_session io (block (delete_police_station i)) db)
  end.

(** A run of handlers, each with the answer of the engine to its commit. *)
Definition serve_all (qs : list (option exn * request)) (db : DB) : DB :=
  fold_left (fun db q => serve (fst q) (snd q) db) qs db.

(** What one unit of work can do to the store: nothing, a flush of DELETEs,
    one INSERT or one UPDATE that passed the checks of its table. *)
Inductive transition (db : DB) : DB -> Prop :=
| t_none : transition db db
| t_delete (d : list (table * Z)) : transition db (flush_rows d db)
| t_insert_city (row : City.t) :
    City.id row = next_rowid (map City.id (cities db)) ->
    Py.strip (City.name row) = City.name row ->
    norm_opt (City.state row) = City.state row ->
    norm_opt (City.country row) = City.country row ->
    existsb (uq_city_name_state_country row) (cities db) = false ->
    transition db (mkDB (cities db ++ [row]) (neighborhoods db) (streets db)
                        (police_stations db))
| t_insert_neighborhood (row : Neighborhood.t) :
    Neighborhood.id row = next_rowid (map Neighborhood.id (neighborhoods db)) ->
    Py.strip (Neighborhood.name row) = Neighborhood.name row ->
    existsb (uq_neighborhood_name_city row) (neighborhoods db) = false ->
    has_city db (Neighborhood.city_id row) = true ->
    transition db (mkDB (cities db) (neighborhoods db ++ [row]) (streets db)
                        (police_stations db))
| t_insert_street (row : Street.t) :
    Street.id row = next_rowid (map Street.id (streets db)) ->
    Py.strip (Street.name row) = Street.name row ->
    existsb (uq_street_name_neighborhood row) (streets db) = false ->
    has_neighborhood db (Street.neighborhood_id row) = true ->
    transition db (mkDB (cities db) (neighborhoods db) (streets db ++ [row])
                        (police_stations db))
| t_insert_police_station (row : PoliceStation.t) :
    PoliceStation.id row = next_rowid (map PoliceStation.id (police_stations db)) ->
    Py.strip (PoliceStation.name row) = PoliceStation.name row ->
    norm_opt (PoliceStation.address row) = PoliceStation.address row ->
    existsb (uq_police_station_name_city row) (police_stations db) = false ->
    fk_city_opt db (PoliceStation.city_id row) = true ->
    transition db (mkDB (cities db) (neighborhoods db) (streets db)
                        (police_stations db ++ [row]))
| t_update_city (row : City.t) :
    Py.strip (City.name row) = City.name row ->
    norm_opt (City.state row) = City.state row ->
    norm_opt (City.country row) = City.country row ->
    existsb (fun x => negb (City.id x =? City.id row) && uq_city_name_state_country row x)
            (cities db) = false ->
    transition db (mkDB (map (fun x => if City.id x =? City.id row then row else x)
                             (cities db))
                        (neighborhoods db) (streets db) (police_stations db))
| t_update_neighborhood (row : Neighborhood.t) :
    Py.strip (Neighborhood.name row) = Neighborhood.name row ->
    existsb (fun x => negb (Neighborhood.id x =? Neighborhood.id row)
                      && uq_neighborhood_name_city row x) (neighborhoods db) = false ->
    has_city db (Neighborhood.city_id row) = true ->
    transition db (mkDB (cities db)
                        (map (fun x => if Neighborhood.id x =? Neighborhood.id row
                                       then row else x) (neighborhoods db))
                        (streets db) (police_stations db))
| t_update_street (row : Street.t) :
    Py.strip (Street.name row) = Street.name row ->
    existsb (fun x => negb (Street.id x =? Street.id row)
                      && uq_street_name_neighborhood row x) (streets db) = false ->
    has_neighborhood db (Street.neighborhood_id row) = true ->
    transition db (mkDB (cities db) (neighborhoods db)
                        (map (fun x => if Street.id x =? Street.id row then row else x)
                             (streets db))
                        (police_stations db))
| t_update_police_station (row : PoliceStation.t) :
    Py.strip (PoliceStation.name row) = PoliceStation.name row ->
    norm_opt (PoliceStation.address row) = PoliceStation.address row ->
    existsb (fun x => negb (PoliceStation.id x =? PoliceStation.id row)
                      && uq_police_station_name_city row x) (police_stations db) = false ->
    fk_city_opt db (PoliceStation.city_id row) = true ->
    transition db (mkDB (cities db) (neighborhoods db) (streets db)
                        (map (fun x => if PoliceStation.id x =? PoliceStation.id row
                                       then row else x) (police_stations db))).

(** ** Python strings: what [strip] removes *)

Section Strip.
Local Open Scope string_scope.

Lemma lstrip_split (s : string) :
  exists pre, s = pre ++ Py.lstrip s /\ all_space pre = true
              /\ no_space (first_char (Py.lstrip s)).
Proof.
  induction s as [|c r IH]; simpl.
  - exists ""; repeat split; reflexivity.
  - destruct (Py.isspace c) eqn:Hc.
    + destruct IH as (pre & Hr & Hpre & Hfirst).
      exists (String c pre); simpl; rewrite Hc, Hpre.
      repeat split; [now rewrite <- Hr | assumption].
    + exists ""; simpl; repeat split; assumption.
Qed.

Lemma rstrip_split (s : string) :
  exists post, s = Py.rstrip s ++ post /\ all_space post = true
               /\ no_space (last_char (Py.rstrip s)).
Proof.
  induction s as [|c r IH]; simpl.
  - exists ""; repeat split; reflexivity.
  - destruct IH as (post & Hr & Hpost & Hlast).
    destruct (Py.rstrip r) as [|d r'] eqn:Hrs.
    + simpl in Hr; subst post.
      destruct (Py.isspace c) eqn:Hc.
      * exists (String c r); simpl; rewrite Hc, Hpost; repeat split; reflexivity.
      * exists r; simpl; repeat split; assumption.
    + exists post; simpl; repeat split; try assumption.
      now rewrite Hr at 1.
Qed.

Lemma rstrip_first (s : string) :
  no_space (first_char s) -> no_space (first_char (Py.rstrip s)).
Proof.
  destruct s as [|c r]; simpl; [trivial|].
  intros Hc; destruct (Py.rstrip r); simpl; [rewrite Hc|]; exact Hc.
Qed.

Lemma append_assoc (a b c : string) : (a ++ b) ++ c = a ++ (b ++ c).
Proof. induction a as [|x a IH]; simpl; [reflexivity | now rewrite IH]. Qed.

Lemma strip_trimmed (s : string) : Trimmed s (Py.strip s).
Proof.
  unfold Trimmed, Py.strip.
  destruct (lstrip_split s) as (pre & Hs & Hpre & Hfirst).
  destruct (rstrip_split (Py.lstrip s)) as (post & Hl & Hpost & Hlast).
  exists pre, post; repeat split; try assumption.
  - now rewrite <- Hl.
  - now apply rstrip_first.
Qed.



End Strip.

(** ** The store: ordering and deletion *)

Section OrderBy.
Context {A : Type} (key : A -> string).

Lemma insert_by_perm (x : A) (l : list A) : Permutation (insert_by key x l) (x :: l).
Proof.
  induction l as [|y r IH]; simpl; [reflexivity|].
  destruct (String.leb (key x) (key y)); [reflexivity|].
  rewrite IH; apply perm_swap.
Qed.

Lemma order_by_perm (l : list A) : Permutation (order_by key l) l.
Proof.
  induction l as [|x r IH]; simpl; [reflexivity|].
  rewrite insert_by_perm; now constructor.
Qed.

Lemma order_by_In (l : list A) (x : A) : In x (order_by key l) <-> In x l.
Proof.
  split; apply Permutation_in; [|symmetry]; apply order_by_perm.
Qed.

End OrderBy.

Lemma find_id_none {A} (id : A -> Z) (l : list A) (i : Z) :
  (forall x, In x l -> id x <> i) -> find (fun x => id x =? i) l = None.
Proof.
  intros H; destruct (find _ l) as [x|] eqn:Hf; [|reflexivity].
  apply find_some in Hf; destruct Hf as [Hin Heq].
  apply Z.eqb_eq in Heq; now apply H in Hin.
Qed.

Lemma find_id_some {A} (id : A -> Z) (l : list A) (i : Z) (x : A) :
  In x l -> id x = i -> exists y, find (fun x => id x =? i) l = Some y.
Proof.
  intros Hin Hid; destruct (find _ l) as [y|] eqn:Hf; [now exists y|].
  eapply find_none in Hf; [|exact Hin]. apply Z.eqb_neq in Hf; contradiction.
Qed.

Ltac row_cases r :=
  let t := fresh "t" in let i := fresh "i" in
  destruct r as [t i]; destruct t; simpl;
  try (destruct (has_city _ i) eqn:?; simpl);
  try (destruct (has_neighborhood _ i) eqn:?; simpl).

Lemma delete_row_cities r db x : In x (cities (delete_row r db)) -> In x (cities db).
Proof. row_cases r; rewrite ?filter_In; tauto. Qed.

Lemma delete_row_neighborhoods r db x :
  In x (neighborhoods (delete_row r db)) -> In x (neighborhoods db).
Proof. row_cases r; rewrite ?filter_In; tauto. Qed.


(** A police station that is still there is a row of before, or such a row
    with its city set to NULL by the deletion of that city. *)
Lemma delete_row_police_stations r db p :
  In p (police_stations (delete_row r db)) ->
  In p (police_stations db)
  \/ exists q, In q (police_stations db)
               /\ r = (Cities, match PoliceStation.city_id q with Some i => i | None => 0 end)
               /\ PoliceStation.city_id q <> None
               /\ p = PoliceStation.mk (PoliceStation.id q) (PoliceStation.name q) None
                                       (PoliceStation.address q).
Proof.
  row_cases r; rewrite ?filter_In; try tauto.
  rewrite in_map_iff; intros (q & Hq & Hin).
  destruct (PoliceStation.city_id q) as [j|] eqn:Hc; simpl in Hq.
  - destruct (Z.eqb_spec j i) as [->|]; subst p; [right|now left].
    exists q; rewrite Hc; repeat split; [assumption | congruence].
  - subst p; now left.
Qed.

Lemma flush_rows_cities D : forall db x, In x (cities (flush_rows D db)) -> In x (cities db).
Proof.
  induction D as [|r D IH]; unfold flush_rows; simpl; intros db x H; [assumption|].
  eapply delete_row_cities, IH, H.
Qed.

Lemma flush_rows_neighborhoods D :
  forall db x, In x (neighborhoods (flush_rows D db)) -> In x (neighborhoods db).
Proof.
  induction D as [|r D IH]; unfold flush_rows; simpl; intros db x H; [assumption|].
  eapply delete_row_neighborhoods, IH, H.
Qed.


Lemma flush_rows_police_stations D :
  forall db p, In p (police_stations (flush_rows D db)) ->
  In p (police_stations db)
  \/ exists q i, In q (police_stations db) /\ In (Cities, i) D
                 /\ PoliceStation.city_id q = Some i
                 /\ p = PoliceStation.mk (PoliceStation.id q) (PoliceStation.name q) None
                                         (PoliceStation.address q).
Proof.
  induction D as [|r D IH]; unfold flush_rows; simpl; intros db p H; [now left|].
  apply IH in H; destruct H as [H | (q & i & Hq & Hi & Hc & ->)].
  - apply delete_row_police_stations in H.
    destruct H as [H | (q & Hq & -> & Hc & ->)]; [now left|right].
    destruct (PoliceStation.city_id q) as [j|] eqn:E; [|congruence].
    exists q, j; rewrite E; auto.
  - apply delete_row_police_stations in Hq.
    destruct Hq as [Hq | (q0 & _ & _ & _ & ->)]; [|discriminate].
    right; exists q, i; auto.
Qed.

Lemma flush_rows_police_station_ids D db p :
  In p (police_stations (flush_rows D db)) ->
  exists q, In q (police_stations db) /\ PoliceStation.id q = PoliceStation.id p.
Proof.
  intros H; apply flush_rows_police_stations in H.
  destruct H as [H | (q & i & Hq & _ & _ & ->)]; [now exists p | now exists q].
Qed.

Lemma flush_rows_cons r D db : flush_rows (r :: D) db = flush_rows D (delete_row r db).
Proof. reflexivity. Qed.

Lemma existsb_id_false {A} (id : A -> Z) (l : list A) (i : Z) (x : A) :
  existsb (fun y => id y =? i) l = false -> In x l -> id x <> i.
Proof.
  intros He Hin Hid.
  assert (existsb (fun y => id y =? i) l = true); [|congruence].
  apply existsb_exists; exists x; split; [assumption | now apply Z.eqb_eq].
Qed.

Lemma negb_eqb_neq (a b : Z) : negb (a =? b) = true -> a <> b.
Proof. destruct (Z.eqb_spec a b); simpl; congruence. Qed.

Lemma delete_row_removes_city i db x :
  In x (cities (delete_row (Cities, i) db)) -> City.id x <> i.
Proof.
  simpl; destruct (has_city db i) eqn:E; simpl.
  - rewrite filter_In; intros [_ H]; now apply negb_eqb_neq.
  - now apply existsb_id_false.
Qed.

Lemma delete_row_removes_neighborhood i db x :
  In x (neighborhoods (delete_row (Neighborhoods, i) db)) -> Neighborhood.id x <> i.
Proof. simpl; rewrite filter_In; intros [_ H]; now apply negb_eqb_neq. Qed.

Lemma delete_row_removes_street i db x :
  In x (streets (delete_row (Streets, i) db)) -> Street.id x <> i.
Proof. simpl; rewrite filter_In; intros [_ H]; now apply negb_eqb_neq. Qed.

Lemma delete_row_removes_police_station i db x :
  In x (police_stations (delete_row (PoliceStations, i) db)) -> PoliceStation.id x <> i.
Proof. simpl; rewrite filter_In; intros [_ H]; now apply negb_eqb_neq. Qed.

(** A row marked for deletion is gone after the flush, wherever its DELETE
    stands among the others. *)
Lemma flush_rows_removes_city D :
  forall db i x, In (Cities, i) D -> In x (cities (flush_rows D db)) -> City.id x <> i.
Proof.
  induction D as [|r D IH]; intros db i x Hin Hx; [destruct Hin|].
  rewrite flush_rows_cons in Hx; destruct Hin as [->|Hin].
  - apply flush_rows_cities in Hx; eapply delete_row_removes_city, Hx.
  - eapply IH; eassumption.
Qed.

Lemma flush_rows_removes_neighborhood D :
  forall db i x, In (Neighborhoods, i) D -> In x (neighborhoods (flush_rows D db)) ->
                 Neighborhood.id x <> i.
Proof.
  induction D as [|r D IH]; intros db i x Hin Hx; [destruct Hin|].
  rewrite flush_rows_cons in Hx; destruct Hin as [->|Hin].
  - apply flush_rows_neighborhoods in Hx; eapply delete_row_removes_neighborhood, Hx.
  - eapply IH; eassumption.
Qed.


Lemma flush_rows_removes_police_station D :
  forall db i x, In (PoliceStations, i) D -> In x (police_stations (flush_rows D db)) ->
                 PoliceStation.id x <> i.
Proof.
  induction D as [|r D IH]; intros db i x Hin Hx; [destruct Hin|].
  rewrite flush_rows_cons in Hx; destruct Hin as [->|Hin].
  - apply flush_rows_police_station_ids in Hx; destruct Hx as (q & Hq & <-).
    eapply delete_row_removes_police_station, Hq.
  - eapply IH; eassumption.
Qed.

Lemma delete_order_In (r : table * Z) (d : list (table * Z)) :
  In r (delete_order d) <-> In r d.
Proof.
  unfold delete_order; rewrite !in_app_iff, !filter_In.
  destruct r as [[] i]; unfold is_table; simpl; intuition congruence.
Qed.

(** A police station survives a flush that neither deletes it nor deletes
    its city. *)
Lemma delete_row_keeps_police_station r db p :
  In p (police_stations db) ->
  r <> (PoliceStations, PoliceStation.id p) ->
  (forall i, r = (Cities, i) -> PoliceStation.city_id p <> Some i) ->
  In p (police_stations (delete_row r db)).
Proof.
  intros Hin Hr Hc; row_cases r; try assumption.
  - apply in_map_iff; exists p; split; [|assumption].
    specialize (Hc i eq_refl); destruct (PoliceStation.city_id p) as [j|]; simpl; [|reflexivity].
    destruct (Z.eqb_spec j i); [congruence | reflexivity].
  - apply filter_In; split; [assumption|].
    destruct (Z.eqb_spec (PoliceStation.id p) i); [congruence | reflexivity].
Qed.

Lemma flush_rows_keeps_police_station D :
  forall db p, In p (police_stations db) ->
  ~ In (PoliceStations, PoliceStation.id p) D ->
  (forall i, In (Cities, i) D -> PoliceStation.city_id p <> Some i) ->
  In p (police_stations (flush_rows D db)).
Proof.
  induction D as [|r D IH]; intros db p Hin Hr Hc; [assumption|].
  rewrite flush_rows_cons; apply IH.
  - apply delete_row_keeps_police_station; [assumption | |].
    + intros ->; apply Hr; now left.
    + intros i ->; apply Hc; now left.
  - intros H; apply Hr; now right.
  - intros i H; apply Hc; now right.
Qed.

(** ** What the delete cascade of a city reaches *)

Section Cascade.
Variables (db : DB) (c : City.t).

Lemma cascade_city_self : In (Cities, City.id c) (cascade_city db c).
Proof. now left. Qed.

Lemma cascade_city_only (i : Z) : In (Cities, i) (cascade_city db c) -> i = City.id c.
Proof.
  unfold cascade_city; simpl; rewrite in_app_iff, in_flat_map, in_map_iff.
  intros [H | [(n & _ & [H | H]) | (p & H & _)]]; try congruence.
  apply in_map_iff in H; destruct H as (x & H & _); congruence.
Qed.



Lemma cascade_city_police_stations_only (j : Z) :
  In (PoliceStations, j) (cascade_city db c) ->
  exists q, In q (police_stations db) /\ PoliceStation.city_id q = Some (City.id c)
            /\ PoliceStation.id q = j.
Proof.
  unfold cascade_city; simpl; rewrite in_app_iff, in_flat_map, in_map_iff.
  intros [H | [(n & _ & [H | H]) | (q & H & Hq)]]; try congruence.
  - apply in_map_iff in H; destruct H as (x & H & _); congruence.
  - apply filter_In in Hq; destruct Hq as [Hin Hc]; exists q; repeat split.
    + assumption.
    + destruct (PoliceStation.city_id q) as [k|]; simpl in Hc; [|discriminate].
      apply Z.eqb_eq in Hc; congruence.
    + congruence.
Qed.

Lemma cascade_city_police_station (p : PoliceStation.t) :
  In p (police_stations db) -> PoliceStation.city_id p = Some (City.id c) ->
  In (PoliceStations, PoliceStation.id p) (cascade_city db c).
Proof.
  intros Hin Hc; right; apply in_app_iff; right; apply in_map_iff.
  exists p; split; [reflexivity|].
  apply filter_In; split; [assumption|]. rewrite Hc; simpl; apply Z.eqb_refl.
Qed.

End Cascade.

(** The unit of work [with get_session() as s: delete_city(s, city_id)] on a
    store that has the city. *)
Lemma delete_city_run (db : DB) (cid : Z) (c : City.t) :
  find (fun c => City.id c =? cid) (cities db) = Some c ->
  get_session None (block (delete_city cid)) db
  = (let db' := flush_rows (delete_order (cascade_city db c)) db in
     mkSession db' db' [] true [EvCommit; EvClose], Completed tt).
Proof.
  intros H; unfold get_session, block, delete_city, bind, get_city, select; simpl.
  rewrite H; reflexivity.
Qed.

Lemma city_found (db : DB) (cid : Z) :
  (exists c, In c (cities db) /\ City.id c = cid) ->
  exists c, find (fun c => City.id c =? cid) (cities db) = Some c /\ City.id c = cid.
Proof.
  intros (c & Hin & Hid).
  destruct (find_id_some City.id _ _ _ Hin Hid) as (y & Hy).
  exists y; split; [assumption|].
  apply find_some in Hy; now apply Z.eqb_eq.
Qed.

(** ** What the list operations return *)




Lemma list_police_stations_rows (f : option Z) (s : Session) :
  exists l, list_police_stations f s = (s, Ok l)
            /\ forall x, In x l -> In x (police_stations (tx s)).
Proof.
  eexists; split; [reflexivity|]; intros x; simpl; rewrite order_by_In.
  destruct (Py.truthy f); [rewrite filter_In|]; tauto.
Qed.

(** ** Deleting a city *)

(** C1, as the code has it: deleting a City through [delete_city] deletes
    every PoliceStation whose city reference is that City (the relationship
    [City.police_stations] cascades the delete); no station with the
    identity of such a station is left in the store, the stations that are
    left are rows of before that referred to another city or to none, and
    every such row whose identity is not that of a deleted station is left. *)
Theorem delete_city_deletes_police_stations (db : DB) (cid : Z) :
  (exists c, In c (cities db) /\ City.id c = cid) ->
  let r := get_session None (block (delete_city cid)) db in
  outcome r = Completed tt
  /\ (forall p, In p (police_stations db) -> PoliceStation.city_id p = Some cid ->
      forall q, In q (police_stations (store_after r)) ->
                PoliceStation.id q <> PoliceStation.id p)
  /\ (forall q, In q (police_stations (store_after r)) ->
      In q (police_stations db) /\ PoliceStation.city_id q <> Some cid)
  /\ (forall p, In p (police_stations db) -> PoliceStation.city_id p <> Some cid ->
      (forall q, In q (police_stations db) -> PoliceStation.city_id q = Some cid ->
                 PoliceStation.id q <> PoliceStation.id p) ->
      In p (police_stations (store_after r))).
Proof.
  intros Hc; apply city_found in Hc; destruct Hc as (c & Hf & <-).
  rewrite (delete_city_run _ _ _ Hf); unfold outcome, store_after; simpl.
  assert (Hgone : forall p, In p (police_stations db) ->
            PoliceStation.city_id p = Some (City.id c) ->
            forall q, In q (police_stations (flush_rows (delete_order (cascade_city db c)) db)) ->
                      PoliceStation.id q <> PoliceStation.id p).
  { intros p Hp Hpc q Hq.
    eapply flush_rows_removes_police_station; [|exact Hq].
    apply delete_order_In; now apply cascade_city_police_station. }
  split; [reflexivity|]; split; [exact Hgone|]; split.
  - intros q Hq; pose proof Hq as Hq'.
    apply flush_rows_police_stations in Hq'.
    destruct Hq' as [Hin | (q0 & i & Hq0 & Hi & Hci & ->)].
    + split; [assumption|]; intros Hqc; now apply (Hgone q Hin Hqc q Hq).
    + apply delete_order_In, cascade_city_only in Hi; subst i.
      now destruct (Hgone q0 Hq0 Hci _ Hq).
  - intros p Hp Hpc Hid; apply flush_rows_keeps_police_station; [assumption | |].
    + intros H; apply delete_order_In, cascade_city_police_stations_only in H.
      destruct H as (q & Hq & Hqc & Hqi); exact (Hid q Hq Hqc Hqi).
    + intros i H; apply delete_order_In, cascade_city_only in H; congruence.
Qed.

Lemma delete_city_deletes_police_stations_witness :
  let r := get_session None (block (delete_city 1)) springfield in
  outcome r = Completed tt
  /\ (forall p, In p (police_stations springfield) -> PoliceStation.city_id p = Some 1 ->
      forall q, In q (police_stations (store_after r)) ->
                PoliceStation.id q <> PoliceStation.id p)
  /\ (forall q, In q (police_stations (store_after r)) ->
      In q (police_stations springfield) /\ PoliceStation.city_id q <> Some 1)
  /\ (forall p, In p (police_stations springfield) -> PoliceStation.city_id p <> Some 1 ->
      (forall q, In q (police_stations springfield) -> PoliceStation.city_id q = Some 1 ->
                 PoliceStation.id q <> PoliceStation.id p) ->
      In p (police_stations (store_after r))).
Proof.
  apply (delete_city_deletes_police_stations springfield 1).
  exists (City.mk 1 "Springfield" (Some "IL"%string) (Some "US"%string)).
  split; [simpl; auto | reflexivity].
Defined.

(** C1 as stated fails: after [delete_city] on the city of a station, no
    station with that identity and a cleared city reference is in the store;
    the station is gone. *)
Lemma delete_city_detach_counterexample :
  let station := PoliceStation.mk 1 "Central" (Some 1) None in
  let r := get_session None (block (delete_city 1)) springfield in
  In station (police_stations springfield)
  /\ outcome r = Completed tt
  /\ police_stations (store_after r)
     = [PoliceStation.mk 2 "North" (Some 2) (Some "1 Elm St"%string);
        PoliceStation.mk 3 "Mobile" None None]
  /\ ~ (exists p, In p (police_stations (store_after r))
                  /\ PoliceStation.id p = PoliceStation.id station
                  /\ PoliceStation.city_id p = None).
Proof.
  cbv zeta; split; [simpl; auto|]; split; [reflexivity|]; split; [reflexivity|].
  intros (p & Hin & Hid & _); vm_compute in Hin.
  destruct Hin as [<- | [<- | []]]; discriminate.
Qed.




(** ** The unit of work *)

Lemma flush_deleted_state (s : Session) :
  committed (flush_deleted s) = committed s /\ log (flush_deleted s) = log s
  /\ closed (flush_deleted s) = closed s /\ deleted (flush_deleted s) = [].
Proof. repeat split. Qed.

Lemma commit_ok (s : Session) :
  commit None s
  = (let db := flush_rows (delete_order (deleted s)) (tx s) in
     mkSession db db [] (closed s) (log s ++ [EvCommit]), Ok tt).
Proof. reflexivity. Qed.

Lemma commit_fails (e : exn) (s : Session) :
  exists s', commit (Some e) s = (s', Raise e)
             /\ committed s' = committed s /\ log s' = log s ++ [EvCommit].
Proof. eexists; repeat split. Qed.

Lemma last_app_nonempty {A} (l m : list A) (d : A) :
  m <> [] -> last (l ++ m) d = last m d.
Proof.
  intros Hm; induction l as [|x l IH]; [reflexivity|].
  simpl; rewrite IH; destruct (l ++ m) eqn:E; [|reflexivity].
  apply app_eq_nil in E; destruct E; contradiction.
Qed.

(** C3: [get_session] commits when the body is left without an exception
    (at its end or by a return) and the commit succeeds; when the body or the
    commit raises, the same exception leaves [get_session], nothing of the
    transaction is kept (the committed store is the one the session had,
    the transaction is discarded) and [rollback] is called before [close]
    for every exception that is an [Exception]; on every path the session is
    closed last. *)
Theorem get_session_exits {A} (io : option exn) (body : Session -> Session * leave A)
  (db : DB) :
  let '(s1, r1) := body (SessionLocal db) in
  let '(sf, rf) := get_session io body db in
  (closed sf = true /\ last (log sf) EvCommit = EvClose
   /\ tx sf = committed sf /\ deleted sf = [])
  /\ match r1, io with
     | Raised e, _ =>
         rf = Raised e /\ committed sf = committed s1
         /\ log sf = log s1 ++ (if is_Exception e then [EvRollback] else []) ++ [EvClose]
     | _, Some e =>
         rf = Raised e /\ committed sf = committed s1
         /\ log sf = log s1 ++ [EvCommit]
                     ++ (if is_Exception e then [EvRollback] else []) ++ [EvClose]
     | _, None =>
         rf = r1 /\ committed sf = flush_rows (delete_order (deleted s1)) (tx s1)
         /\ log sf = log s1 ++ [EvCommit; EvClose]
     end.
Proof.
  unfold get_session; destruct (body (SessionLocal db)) as [s1 r1].
  destruct r1 as [a|a|e]; [destruct io as [e|] .. |]; simpl;
    try destruct (is_Exception e); simpl;
    rewrite <- ?app_assoc; simpl; repeat split;
    rewrite last_app_nonempty by discriminate; reflexivity.
Qed.

(** A body that creates a city and then fails leaves no trace of the city. *)
Example get_session_rolls_back :
  get_session None
    (fun s => match create_city "Capital City" None None s with
              | (s', _) => (s', Raised (ValueError "boom") : leave unit)
              end) springfield
  = (mkSession springfield springfield [] true [EvRollback; EvClose],
     Raised (ValueError "boom")).
Proof. reflexivity. Qed.

(** A commit that the engine refuses: the error leaves [get_session] after
    the rollback, and the store is the one of before. *)
Example get_session_commit_fails :
  get_session (Some (OperationalError "database is locked"))
              (block (create_city "Capital City" None None)) springfield
  = (mkSession springfield springfield [] true [EvCommit; EvRollback; EvClose],
     Raised (OperationalError "database is locked")).
Proof. reflexivity. Qed.

(** ** The integrity translator *)

(** C8, as the code has it: a uniqueness failure of the commit is answered
    by a rollback and a [DuplicateError] that carries the text of the
    storage error; a failure that is not an integrity error, and a commit
    that succeeds, pass through as they are. *)
Theorem commit_with_integrity_handling_spec (io : option exn) (s : Session) :
  let '(s1, r1) := commit io s in
  let '(s2, r2) := commit_with_integrity_handling io s in
  match r1 with
  | Ok _ => r2 = Ok tt /\ s2 = s1
  | Raise (IntegrityError UNIQUE d) =>
      r2 = Raise (DuplicateError d) /\ s2 = rollback s1
      /\ str (DuplicateError d) = str (IntegrityError UNIQUE d)
  | Raise (IntegrityError _ _) => True
  | Raise e => r2 = Raise e /\ s2 = s1
  end.
Proof.
  unfold commit_with_integrity_handling.
  destruct io as [e|]; simpl; [|split; reflexivity].
  destruct e as [c d| | | |]; try (split; reflexivity).
  destruct c; simpl; repeat split.
Qed.

(** C8 as stated fails: the [DuplicateError] keeps the storage engine's
    wording, so two uniqueness failures with different wording give
    different failures. *)
Lemma integrity_translator_counterexample :
  let e1 := unique_failed "cities.name, cities.state, cities.country" in
  let e2 := unique_failed "streets.name, streets.neighborhood_id" in
  let s := SessionLocal springfield in
  snd (commit_with_integrity_handling (Some e1) s) = Raise (DuplicateError (str e1))
  /\ str e1 = "(sqlite3.IntegrityError) UNIQUE constraint failed: cities.name, cities.state, cities.country"%string
  /\ snd (commit_with_integrity_handling (Some e1) s)
     <> snd (commit_with_integrity_handling (Some e2) s).
Proof. cbv zeta; repeat split; vm_compute; discriminate. Qed.

(** A storage failure that is no integrity error passes through. *)
Example integrity_translator_operational :
  snd (commit_with_integrity_handling (Some (OperationalError "database is locked"))
                                      (SessionLocal springfield))
  = Raise (OperationalError "database is locked").
Proof. reflexivity. Qed.

(** The translator catches every [IntegrityError], whatever the constraint. *)
Example integrity_translator_foreign_key :
  snd (commit_with_integrity_handling (Some foreign_key_failed) (SessionLocal springfield))
  = Raise (DuplicateError "(sqlite3.IntegrityError) FOREIGN KEY constraint failed").
Proof. reflexivity. Qed.

(** ** Units of work of one create or update call *)

Ltac session_cbn :=
  cbn [fst snd negb tx committed deleted closed log SessionLocal
       City.id Neighborhood.id Street.id PoliceStation.id
       Neighborhood.city_id Street.neighborhood_id PoliceStation.city_id].

Ltac run_unit_of_work :=
  unfold get_session, block, bind, select, raise, flush_failed, rolled_back, committed_as;
  session_cbn;
  repeat match goal with
    | |- context [find ?f ?l] => destruct (find f l); session_cbn
    | |- context [if existsb ?f ?l then _ else _] => destruct (existsb f l); session_cbn
    | |- context [if has_city ?d ?i then _ else _] => destruct (has_city d i); session_cbn
    | |- context [if has_neighborhood ?d ?i then _ else _] =>
        destruct (has_neighborhood d i); session_cbn
    | |- context [if fk_city_opt ?d ?i then _ else _] =>
        destruct (fk_city_opt d i); session_cbn
    end;
  try reflexivity.

Lemma create_city_run db name state country :
  let row := City.mk (next_rowid (map City.id (cities db))) (Py.strip name)
                     (norm_opt state) (norm_opt country) in
  get_session None (block (create_city name state country)) db
  = if existsb (uq_city_name_state_country row) (cities db)
    then (rolled_back db, Raised (unique_failed "cities.name, cities.state, cities.country"))
    else (committed_as (mkDB (cities db ++ [row]) (neighborhoods db) (streets db)
                             (police_stations db)), Completed row).
Proof. unfold create_city, add_flush_city, norm_opt. run_unit_of_work. Qed.

Lemma create_neighborhood_run db name city_id :
  let row := Neighborhood.mk (next_rowid (map Neighborhood.id (neighborhoods db)))
                             (Py.strip name) city_id in
  get_session None (block (create_neighborhood name city_id)) db
  = if existsb (uq_neighborhood_name_city row) (neighborhoods db)
    then (rolled_back db, Raised (unique_failed "neighborhoods.name, neighborhoods.city_id"))
    else if has_city db city_id
    then (committed_as (mkDB (cities db) (neighborhoods db ++ [row]) (streets db)
                             (police_stations db)), Completed row)
    else (rolled_back db, Raised foreign_key_failed).
Proof. unfold create_neighborhood, add_flush_neighborhood. run_unit_of_work. Qed.

Lemma create_street_run db name neighborhood_id :
  let row := Street.mk (next_rowid (map Street.id (streets db))) (Py.strip name)
                       neighborhood_id in
  get_session None (block (create_street name neighborhood_id)) db
  = if existsb (uq_street_name_neighborhood row) (streets db)
    then (rolled_back db, Raised (unique_failed "streets.name, streets.neighborhood_id"))
    else if has_neighborhood db neighborhood_id
    then (committed_as (mkDB (cities db) (neighborhoods db) (streets db ++ [row])
                             (police_stations db)), Completed row)
    else (rolled_back db, Raised foreign_key_failed).
Proof. unfold create_street, add_flush_street. run_unit_of_work. Qed.

Lemma create_police_station_run db name city_id address :
  let row := PoliceStation.mk (next_rowid (map PoliceStation.id (police_stations db)))
                              (Py.strip name) city_id (norm_opt address) in
  get_session None (block (create_police_station name city_id address)) db
  = if existsb (uq_police_station_name_city row) (police_stations db)
    then (rolled_back db,
          Raised (unique_failed "police_stations.name, police_stations.city_id"))
    else if fk_city_opt db city_id
    then (committed_as (mkDB (cities db) (neighborhoods db) (streets db)
                             (police_stations db ++ [row])), Completed row)
    else (rolled_back db, Raised foreign_key_failed).
Proof.
  unfold create_police_station, add_flush_police_station, norm_opt. run_unit_of_work.
Qed.

Lemma update_city_run db i name state country :
  get_session None (block (update_city i name state country)) db
  = match find (fun c => City.id c =? i) (cities db) with
    | None => (rolled_back db, Raised (ValueError "City not found"))
    | Some c =>
        let row := City.mk (City.id c) (Py.strip name) (norm_opt state) (norm_opt country) in
        if existsb (fun x => negb (City.id x =? City.id c) && uq_city_name_state_country row x)
                   (cities db)
        then (rolled_back db,
              Raised (unique_failed "cities.name, cities.state, cities.country"))
        else (committed_as (mkDB (map (fun x => if City.id x =? City.id c then row else x)
                                      (cities db))
                                 (neighborhoods db) (streets db) (police_stations db)),
              Completed row)
    end.
Proof.
  unfold update_city, get_city, flush_city, norm_opt. run_unit_of_work.
Qed.

Lemma update_neighborhood_run db i name city_id :
  get_session None (block (update_neighborhood i name city_id)) db
  = match find (fun n => Neighborhood.id n =? i) (neighborhoods db) with
    | None => (rolled_back db, Raised (ValueError "Neighborhood not found"))
    | Some n =>
        let row := Neighborhood.mk (Neighborhood.id n) (Py.strip name) city_id in
        if existsb (fun x => negb (Neighborhood.id x =? Neighborhood.id n)
                             && uq_neighborhood_name_city row x) (neighborhoods db)
        then (rolled_back db,
              Raised (unique_failed "neighborhoods.name, neighborhoods.city_id"))
        else if has_city db city_id
        then (committed_as (mkDB (cities db)
                (map (fun x => if Neighborhood.id x =? Neighborhood.id n then row else x)
                     (neighborhoods db))
                (streets db) (police_stations db)), Completed row)
        else (rolled_back db, Raised foreign_key_failed)
    end.
Proof.
  unfold update_neighborhood, get_neighborhood, flush_neighborhood. run_unit_of_work.
Qed.

Lemma update_street_run db i name neighborhood_id :
  get_session None (block (update_street i name neighborhood_id)) db
  = match find (fun x => Street.id x =? i) (streets db) with
    | None => (rolled_back db, Raised (ValueError "Street not found"))
    | Some x0 =>
        let row := Street.mk (Street.id x0) (Py.strip name) neighborhood_id in
        if existsb (fun x => negb (Street.id x =? Street.id x0)
                             && uq_street_name_neighborhood row x) (streets db)
        then (rolled_back db, Raised (unique_failed "streets.name, streets.neighborhood_id"))
        else if has_neighborhood db neighborhood_id
        then (committed_as (mkDB (cities db) (neighborhoods db)
                (map (fun x => if Street.id x =? Street.id x0 then row else x) (streets db))
                (police_stations db)), Completed row)
        else (rolled_back db, Raised foreign_key_failed)
    end.
Proof.
  unfold update_street, get_street, flush_street. run_unit_of_work.
Qed.

Lemma update_police_station_run db i name city_id address :
  get_session None (block (update_police_station i name city_id address)) db
  = match find (fun p => PoliceStation.id p =? i) (police_stations db) with
    | None => (rolled_back db, Raised (ValueError "Police station not found"))
    | Some p =>
        let row := PoliceStation.mk (PoliceStation.id p) (Py.strip name) city_id
                                    (norm_opt address) in
        if existsb (fun x => negb (PoliceStation.id x =? PoliceStation.id p)
                             && uq_police_station_name_city row x) (police_stations db)
        then (rolled_back db,
              Raised (unique_failed "police_stations.name, police_stations.city_id"))
        else if fk_city_opt db city_id
        then (committed_as (mkDB (cities db) (neighborhoods db) (streets db)
                (map (fun x => if PoliceStation.id x =? PoliceStation.id p then row else x)
                     (police_stations db))), Completed row)
        else (rolled_back db, Raised foreign_key_failed)
    end.
Proof.
  unfold update_police_station, get_police_station, flush_police_station, norm_opt.
  run_unit_of_work.
Qed.

(** ** Identities and the uniqueness of cities *)

Lemma fold_max_ge (i : Z) (r : list Z) :
  i <= fold_right Z.max i r /\ forall x, In x r -> x <= fold_right Z.max i r.
Proof.
  induction r as [|a r [IHi IHr]]; simpl.
  - split; [lia | intros x []].
  - split; [lia|]. intros x [->|Hx]; [lia|]. apply IHr in Hx; lia.
Qed.

(** The rowid of an INSERT lies above every rowid of the table. *)
Lemma next_rowid_fresh (ids : list Z) (x : Z) : In x ids -> x < next_rowid ids.
Proof.
  destruct ids as [|i r]; [intros []|]; unfold next_rowid.
  destruct (fold_max_ge i r) as [Hi Hr].
  intros [<-|Hx]; [lia|]. apply Hr in Hx; lia.
Qed.

Lemma next_rowid_new {A} (id : A -> Z) (l : list A) (x : A) :
  In x l -> id x <> next_rowid (map id l).
Proof.
  intros Hin; apply (in_map id) in Hin; apply next_rowid_fresh in Hin; lia.
Qed.

Lemma sql_eq_string (x y : option string) : sql_eq String.eqb x y = true -> x = y.
Proof.
  destruct x, y; simpl; try discriminate.
  intros H; apply String.eqb_eq in H; congruence.
Qed.

Lemma uq_city_same (i j : Z) (n : string) (s c : option string) :
  s <> None -> c <> None ->
  uq_city_name_state_country (City.mk i n s c) (City.mk j n s c) = true.
Proof.
  unfold uq_city_name_state_country; destruct s, c; try congruence; intros _ _; simpl.
  now rewrite !String.eqb_refl.
Qed.



(** C4, as the code has it: when a City has been created with a state and
    a country that are present after trimming, creating a City with the
    same fields again fails with the storage layer's [IntegrityError] (it is
    not translated into a [DuplicateError]) and leaves the store as it was;
    creating one whose trimmed state differs succeeds, next to the first,
    whenever it would have succeeded in the store as it was before. *)
Theorem create_city_twice (db : DB) (name : string) (state country : option string)
  (c1 : City.t) :
  let r1 := get_session None (block (create_city name state country)) db in
  outcome r1 = Completed c1 ->
  (norm_opt state <> None -> norm_opt country <> None ->
   let r2 := get_session None (block (create_city name state country)) (store_after r1) in
   outcome r2 = Raised (unique_failed "cities.name, cities.state, cities.country")
   /\ store_after r2 = store_after r1)
  /\ (forall state', norm_opt state' <> norm_opt state ->
      (exists c, outcome (get_session None (block (create_city name state' country)) db)
                 = Completed c) ->
      let r2 := get_session None (block (create_city name state' country)) (store_after r1) in
      exists c2, outcome r2 = Completed c2 /\ City.id c2 <> City.id c1
                 /\ In c1 (cities (store_after r2)) /\ In c2 (cities (store_after r2))).
Proof.
  cbv zeta; rewrite create_city_run; cbv zeta.
  destruct (existsb _ (cities db)) eqn:E1; unfold outcome, store_after; simpl;
    [discriminate|].
  intros H; injection H as <-; split.
  - intros Hs Hc; rewrite create_city_run; cbv zeta; cbn [cities].
    rewrite existsb_app; cbn [existsb].
    replace (uq_city_name_state_country _ _) with true;
      [rewrite orb_true_r; split; reflexivity|].
    symmetry; apply uq_city_same; assumption.
  - intros state' Hne (c & Hc).
    assert (E2 : forall i, existsb (uq_city_name_state_country
                   (City.mk i (Py.strip name) (norm_opt state') (norm_opt country)))
                   (cities db) = false).
    { intros i; rewrite create_city_run in Hc; cbv zeta in Hc.
      destruct (existsb (uq_city_name_state_country
                (City.mk i (Py.strip name) (norm_opt state') (norm_opt country)))
                (cities db)) eqn:E; [exfalso|reflexivity].
      change (uq_city_name_state_country (City.mk i (Py.strip name) (norm_opt state')
                                                  (norm_opt country)))
        with (uq_city_name_state_country
                (City.mk (next_rowid (map City.id (cities db))) (Py.strip name)
                         (norm_opt state') (norm_opt country))) in E.
      rewrite E in Hc; discriminate Hc. }
    rewrite create_city_run; cbv zeta; cbn [cities].
    rewrite existsb_app, E2; cbn [existsb].
    replace (uq_city_name_state_country _ _) with false.
    + simpl; eexists; split; [reflexivity|]; split.
      * simpl; apply not_eq_sym.
        refine (next_rowid_new City.id _ (City.mk _ _ _ _) _).
        apply in_or_app; right; now left.
      * rewrite !in_app_iff; simpl; auto.
    + symmetry; unfold uq_city_name_state_country; simpl.
      destruct (sql_eq String.eqb (norm_opt state') (norm_opt state)) eqn:Es;
        [apply sql_eq_string in Es; contradiction|].
      now rewrite andb_false_r.
Qed.

Lemma create_city_twice_witness :
  let c1 := City.mk 3 "Springfield" (Some "OH"%string) (Some "US"%string) in
  let r1 := get_session None
              (block (create_city " Springfield" (Some "OH "%string) (Some "US"%string)))
              springfield in
  (let r2 := get_session None
               (block (create_city " Springfield" (Some "OH "%string) (Some "US"%string)))
               (store_after r1) in
   outcome r2 = Raised (unique_failed "cities.name, cities.state, cities.country")
   /\ store_after r2 = store_after r1)
  /\ (let r2 := get_session None
                  (block (create_city " Springfield" (Some "KY"%string) (Some "US"%string)))
                  (store_after r1) in
      exists c2, outcome r2 = Completed c2 /\ City.id c2 <> City.id c1
                 /\ In c1 (cities (store_after r2)) /\ In c2 (cities (store_after r2))).
Proof.
  cbv zeta.
  destruct (create_city_twice springfield " Springfield" (Some "OH "%string)
              (Some "US"%string)
              (City.mk 3 "Springfield" (Some "OH"%string) (Some "US"%string))
              eq_refl) as [Hsame Hother].
  split.
  - apply Hsame; vm_compute; discriminate.
  - apply (Hother (Some "KY"%string)); [vm_compute; discriminate|].
    eexists; vm_compute; reflexivity.
Defined.

(** C4 as stated fails: the second creation fails, but with the storage
    layer's [IntegrityError]; no [DuplicateError] is raised. *)
Lemma create_city_duplicate_counterexample :
  let r1 := get_session None
              (block (create_city "Springfield" (Some "IL"%string) (Some "US"%string)))
              Sqlite.empty in
  let r2 := get_session None
              (block (create_city "Springfield" (Some "IL"%string) (Some "US"%string)))
              (store_after r1) in
  outcome r1 = Completed (City.mk 1 "Springfield" (Some "IL"%string) (Some "US"%string))
  /\ outcome r2
     = Raised (IntegrityError UNIQUE
         "(sqlite3.IntegrityError) UNIQUE constraint failed: cities.name, cities.state, cities.country")
  /\ forall m, outcome r2 <> Raised (DuplicateError m).
Proof. cbv zeta; repeat split; vm_compute; discriminate. Qed.



(** ** Normalisation of text fields *)


Lemma replaced_row_ids {A} (id : A -> Z) (l : list A) (j : Z) (row : A) :
  id row = j -> map id (map (fun x => if id x =? j then row else x) l) = map id l.
Proof.
  intros Hid; rewrite map_map; apply map_ext; intros x.
  destruct (Z.eqb_spec (id x) j); congruence.
Qed.

Ltac unit_of_work_cases :=
  cbv zeta;
  repeat match goal with
    | |- context [find ?f ?l] =>
        let Hf := fresh "Hfound" in destruct (find f l) eqn:Hf
    | |- context [if existsb ?f ?l then _ else _] => destruct (existsb f l)
    | |- context [if has_city ?d ?i then _ else _] => destruct (has_city d i)
    | |- context [if has_neighborhood ?d ?i then _ else _] => destruct (has_neighborhood d i)
    | |- context [if fk_city_opt ?d ?i then _ else _] => destruct (fk_city_opt d i)
    end;
  unfold integrity_failure, unique_failed, foreign_key_failed, rolled_back, committed_as;
  cbn [committed cities neighborhoods streets police_stations
       City.id City.name City.state City.country
       Neighborhood.id Neighborhood.name Neighborhood.city_id
       Street.id Street.name Street.neighborhood_id
       PoliceStation.id PoliceStation.name PoliceStation.city_id PoliceStation.address];
  repeat split; eauto using in_or_app, in_eq.




(** ** Identities *)





(** ** Identities that do not exist *)

Lemma get_session_raise {A} (io : option exn) (op : M A) (db : DB) (e : exn) :
  op (SessionLocal db) = (SessionLocal db, Raise e) -> is_Exception e = true ->
  get_session io (block op) db = (rolled_back db, Raised e).
Proof.
  intros Hop He; unfold get_session, block; rewrite Hop, He; reflexivity.
Qed.

(** On a session that sees no row with the identity, update and delete
    raise "not found" and leave the session as it is. *)
Lemma city_not_found (s : Session) (i : Z) :
  (forall x, In x (cities (tx s)) -> City.id x <> i) ->
  delete_city i s = (s, Raise (ValueError "City not found"))
  /\ forall name state country,
       update_city i name state country s = (s, Raise (ValueError "City not found")).
Proof.
  intros H; apply (find_id_none City.id) in H.
  unfold delete_city, update_city, bind, get_city, select; cbn [fst snd].
  rewrite H; split; reflexivity.
Qed.

Lemma neighborhood_not_found (s : Session) (i : Z) :
  (forall x, In x (neighborhoods (tx s)) -> Neighborhood.id x <> i) ->
  delete_neighborhood i s = (s, Raise (ValueError "Neighborhood not found"))
  /\ forall name city_id,
       update_neighborhood i name city_id s
       = (s, Raise (ValueError "Neighborhood not found")).
Proof.
  intros H; apply (find_id_none Neighborhood.id) in H.
  unfold delete_neighborhood, update_neighborhood, bind, get_neighborhood, select;
    cbn [fst snd].
  rewrite H; split; reflexivity.
Qed.

Lemma street_not_found (s : Session) (i : Z) :
  (forall x, In x (streets (tx s)) -> Street.id x <> i) ->
  delete_street i s = (s, Raise (ValueError "Street not found"))
  /\ forall name neighborhood_id,
       update_street i name neighborhood_id s = (s, Raise (ValueError "Street not found")).
Proof.
  intros H; apply (find_id_none Street.id) in H.
  unfold delete_street, update_street, bind, get_street, select; cbn [fst snd].
  rewrite H; split; reflexivity.
Qed.

Lemma police_station_not_found (s : Session) (i : Z) :
  (forall x, In x (police_stations (tx s)) -> PoliceStation.id x <> i) ->
  delete_police_station i s = (s, Raise (ValueError "Police station not found"))
  /\ forall name city_id address,
       update_police_station i name city_id address s
       = (s, Raise (ValueError "Police station not found")).
Proof.
  intros H; apply (find_id_none PoliceStation.id) in H.
  unfold delete_police_station, update_police_station, bind, get_police_station, select;
    cbn [fst snd].
  rewrite H; split; reflexivity.
Qed.

(** The store a successful delete leaves has no row with that identity. *)
Lemma delete_city_done (db : DB) (i : Z) (s1 : Session) :
  get_session None (block (delete_city i)) db = (s1, Completed tt) ->
  forall x, In x (cities (committed s1)) -> City.id x <> i.
Proof.
  destruct (find (fun c => City.id c =? i) (cities db)) as [c|] eqn:Hf.
  - rewrite (delete_city_run _ _ _ Hf); intros H; injection H as <-; cbn [committed].
    apply find_some in Hf; destruct Hf as [_ Hid]; apply Z.eqb_eq in Hid; subst i.
    intros x; apply flush_rows_removes_city, delete_order_In, cascade_city_self.
  - unfold get_session, block, delete_city, bind, get_city, select; cbn [fst snd tx SessionLocal].
    rewrite Hf; discriminate.
Qed.

Lemma delete_neighborhood_done (db : DB) (i : Z) (s1 : Session) :
  get_session None (block (delete_neighborhood i)) db = (s1, Completed tt) ->
  forall x, In x (neighborhoods (committed s1)) -> Neighborhood.id x <> i.
Proof.
  unfold get_session, block, delete_neighborhood, bind, get_neighborhood, select;
    cbn [fst snd tx SessionLocal].
  destruct (find _ (neighborhoods db)) as [n|] eqn:Hf; [|discriminate].
  intros H; injection H as <-; cbn [committed close commit flush_deleted fst snd tx deleted
                                     delete_neighborhood_obj mark_deleted SessionLocal app].
  apply find_some in Hf; destruct Hf as [_ Hid]; apply Z.eqb_eq in Hid; subst i.
  intros x; apply flush_rows_removes_neighborhood, delete_order_In; now left.
Qed.

Lemma delete_street_done (db : DB) (i : Z) (s1 : Session) :
  get_session None (block (delete_street i)) db = (s1, Completed tt) ->
  forall x, In x (streets (committed s1)) -> Street.id x <> i.
Proof.
  unfold get_session, block, delete_street, bind, get_street, select;
    cbn [fst snd tx SessionLocal].
  destruct (find _ (streets db)) as [n|] eqn:Hf; [|discriminate].
  intros H; injection H as <-; cbn [committed close commit flush_deleted fst snd tx deleted
                                     delete_street_obj mark_deleted SessionLocal app].
  apply find_some in Hf; destruct Hf as [_ Hid]; apply Z.eqb_eq in Hid; subst i.
  intros x Hx; apply (delete_row_removes_street (Street.id n) db x); exact Hx.
Qed.

Lemma delete_police_station_done (db : DB) (i : Z) (s1 : Session) :
  get_session None (block (delete_police_station i)) db = (s1, Completed tt) ->
  forall x, In x (police_stations (committed s1)) -> PoliceStation.id x <> i.
Proof.
  unfold get_session, block, delete_police_station, bind, get_police_station, select;
    cbn [fst snd tx SessionLocal].
  destruct (find _ (police_stations db)) as [n|] eqn:Hf; [|discriminate].
  intros H; injection H as <-; cbn [committed close commit flush_deleted fst snd tx deleted
                                     delete_police_station_obj mark_deleted SessionLocal app].
  apply find_some in Hf; destruct Hf as [_ Hid]; apply Z.eqb_eq in Hid; subst i.
  intros x Hx; apply (delete_row_removes_police_station (PoliceStation.id n) db x); exact Hx.
Qed.

(** C6, as the code has it: for every entity type, an update or a delete of
    an identity, within SQLite's integer range, that no entity of the store
    has fails with the "not found" [ValueError] and leaves the store as it
    was (the unit of work rolls back and commits nothing); once a delete of
    an identity has been committed, a second delete of it fails in that way;
    inside the unit of work of the first delete the deletion is pending, the
    entity is still found, and a second delete of it succeeds. *)
Theorem update_delete_not_found (i : Z) :
  (int64 i -> forall io db,
      ((forall x, In x (cities db) -> City.id x <> i) ->
       get_session io (block (delete_city i)) db
       = (rolled_back db, Raised (ValueError "City not found"))
       /\ forall name state country,
            get_session io (block (update_city i name state country)) db
            = (rolled_back db, Raised (ValueError "City not found")))
      /\ ((forall x, In x (neighborhoods db) -> Neighborhood.id x <> i) ->
          get_session io (block (delete_neighborhood i)) db
          = (rolled_back db, Raised (ValueError "Neighborhood not found"))
          /\ forall name city_id,
               get_session io (block (update_neighborhood i name city_id)) db
               = (rolled_back db, Raised (ValueError "Neighborhood not found")))
      /\ ((forall x, In x (streets db) -> Street.id x <> i) ->
          get_session io (block (delete_street i)) db
          = (rolled_back db, Raised (ValueError "Street not found"))
          /\ forall name neighborhood_id,
               get_session io (block (update_street i name neighborhood_id)) db
               = (rolled_back db, Raised (ValueError "Street not found")))
      /\ ((forall x, In x (police_stations db) -> PoliceStation.id x <> i) ->
          get_session io (block (delete_police_station i)) db
          = (rolled_back db, Raised (ValueError "Police station not found"))
          /\ forall name city_id address,
               get_session io (block (update_police_station i name city_id address)) db
               = (rolled_back db, Raised (ValueError "Police station not found"))))
  /\ (forall io db s1,
      (get_session None (block (delete_city i)) db = (s1, Completed tt) ->
       get_session io (block (delete_city i)) (committed s1)
       = (rolled_back (committed s1), Raised (ValueError "City not found")))
      /\ (get_session None (block (delete_neighborhood i)) db = (s1, Completed tt) ->
          get_session io (block (delete_neighborhood i)) (committed s1)
          = (rolled_back (committed s1), Raised (ValueError "Neighborhood not found")))
      /\ (get_session None (block (delete_street i)) db = (s1, Completed tt) ->
          get_session io (block (delete_street i)) (committed s1)
          = (rolled_back (committed s1), Raised (ValueError "Street not found")))
      /\ (get_session None (block (delete_police_station i)) db = (s1, Completed tt) ->
          get_session io (block (delete_police_station i)) (committed s1)
          = (rolled_back (committed s1), Raised (ValueError "Police station not found"))))
  /\ (forall s,
      (snd (delete_city i s) = Ok tt -> snd (delete_city i (fst (delete_city i s))) = Ok tt)
      /\ (snd (delete_neighborhood i s) = Ok tt ->
          snd (delete_neighborhood i (fst (delete_neighborhood i s))) = Ok tt)
      /\ (snd (delete_street i s) = Ok tt ->
          snd (delete_street i (fst (delete_street i s))) = Ok tt)
      /\ (snd (delete_police_station i s) = Ok tt ->
          snd (delete_police_station i (fst (delete_police_station i s))) = Ok tt)).
Proof.
  assert (Hc : forall io db, (forall x, In x (cities db) -> City.id x <> i) ->
            get_session io (block (delete_city i)) db
            = (rolled_back db, Raised (ValueError "City not found"))
            /\ forall name state country,
                 get_session io (block (update_city i name state country)) db
                 = (rolled_back db, Raised (ValueError "City not found"))).
  { intros io db H; destruct (city_not_found (SessionLocal db) i H) as [Hd Hu].
    split; intros; apply get_session_raise; auto. }
  assert (Hn : forall io db, (forall x, In x (neighborhoods db) -> Neighborhood.id x <> i) ->
            get_session io (block (delete_neighborhood i)) db
            = (rolled_back db, Raised (ValueError "Neighborhood not found"))
            /\ forall name city_id,
                 get_session io (block (update_neighborhood i name city_id)) db
                 = (rolled_back db, Raised (ValueError "Neighborhood not found"))).
  { intros io db H; destruct (neighborhood_not_found (SessionLocal db) i H) as [Hd Hu].
    split; intros; apply get_session_raise; auto. }
  assert (Hs : forall io db, (forall x, In x (streets db) -> Street.id x <> i) ->
            get_session io (block (delete_street i)) db
            = (rolled_back db, Raised (ValueError "Street not found"))
            /\ forall name neighborhood_id,
                 get_session io (block (update_street i name neighborhood_id)) db
                 = (rolled_back db, Raised (ValueError "Street not found"))).
  { intros io db H; destruct (street_not_found (SessionLocal db) i H) as [Hd Hu].
    split; intros; apply get_session_raise; auto. }
  assert (Hp : forall io db, (forall x, In x (police_stations db) -> PoliceStation.id x <> i) ->
            get_session io (block (delete_police_station i)) db
            = (rolled_back db, Raised (ValueError "Police station not found"))
            /\ forall name city_id address,
                 get_session io (block (update_police_station i name city_id address)) db
                 = (rolled_back db, Raised (ValueError "Police station not found"))).
  { intros io db H; destruct (police_station_not_found (SessionLocal db) i H) as [Hd Hu].
    split; intros; apply get_session_raise; auto. }
  split; [intros _ io db; auto|]. split.
  - intros io db s1; repeat split; intros H.
    + apply Hc, (delete_city_done db i s1 H).
    + apply Hn, (delete_neighborhood_done db i s1 H).
    + apply Hs, (delete_street_done db i s1 H).
    + apply Hp, (delete_police_station_done db i s1 H).
  - intros s; repeat split;
      unfold delete_city, delete_neighborhood, delete_street, delete_police_station,
        get_city, get_neighborhood, get_street, get_police_station, bind, select;
      cbn [fst snd];
      match goal with |- context [find ?f ?l] => destruct (find f l) eqn:Hf end;
      cbn [fst snd delete_city_obj delete_neighborhood_obj delete_street_obj
           delete_police_station_obj mark_deleted tx raise];
      try rewrite Hf; try discriminate; reflexivity.
Qed.

Lemma update_delete_not_found_witness :
  (get_session None (block (delete_city 1)) Sqlite.empty
   = (rolled_back Sqlite.empty, Raised (ValueError "City not found"))
   /\ get_session None (block (update_street 1 "Oak St" 1)) Sqlite.empty
      = (rolled_back Sqlite.empty, Raised (ValueError "Street not found")))
  /\ (let s1 := fst (get_session None (block (delete_city 1)) springfield) in
      get_session None (block (delete_city 1)) (committed s1)
      = (rolled_back (committed s1), Raised (ValueError "City not found")))
  /\ (let s1 := fst (get_session None (block (delete_police_station 3)) springfield) in
      get_session None (block (delete_police_station 3)) (committed s1)
      = (rolled_back (committed s1), Raised (ValueError "Police station not found")))
  /\ (let s := SessionLocal springfield in
      snd (delete_street 2 (fst (delete_street 2 s))) = Ok tt).
Proof.
  assert (H1 : int64 1) by (unfold int64; lia).
  split; [split|split; [|split]].
  - apply (proj1 (update_delete_not_found 1) H1 None Sqlite.empty); intros x [].
  - apply (proj1 (update_delete_not_found 1) H1 None Sqlite.empty); intros x [].
  - apply (proj1 (proj2 (update_delete_not_found 1)) None springfield); reflexivity.
  - apply (proj1 (proj2 (update_delete_not_found 3)) None springfield); reflexivity.
  - apply (proj2 (proj2 (update_delete_not_found 2)) (SessionLocal springfield)); reflexivity.
Defined.

(** C6 as stated fails: inside one unit of work nothing is flushed between
    two calls (autoflush is off), so a second [delete_city] of the same
    identity still finds the row and succeeds; no "not found" failure is
    raised, and the unit of work completes. *)
Lemma delete_twice_in_one_scope_counterexample :
  let first := delete_city 1 (SessionLocal springfield) in
  let second := delete_city 1 (fst first) in
  snd first = Ok tt
  /\ snd second = Ok tt
  /\ snd second <> Raise (ValueError "City not found")
  /\ outcome (get_session None (block (delete_city 1 ;; delete_city 1)%session) springfield)
     = Completed tt.
Proof. cbv zeta; repeat split; vm_compute; discriminate. Qed.


(** ** Parent filters of the list operations *)

Lemma filter_none {A} (f : A -> bool) (l : list A) :
  (forall x, In x l -> f x = false) -> filter f l = [].
Proof.
  induction l as [|x l IH]; simpl; intros H; [reflexivity|].
  rewrite (H x) by now left. apply IH; intros y Hy; apply H; now right.
Qed.

(** C7, as the code has it: a parent filter that is absent, or 0 (falsy like
    an absent one), does not restrict the list: all rows of the table come
    back, whatever their parent; a filter that is present, not 0, within
    SQLite's integer range, and equal to no row's parent reference gives the
    empty sequence, not an error. *)
Theorem list_parent_filter (s : Session) (f : option Z) :
  (f = None \/ f = Some 0 ->
   (exists l, snd (list_neighborhoods f s) = Ok l
              /\ Permutation l (neighborhoods (tx s)))
   /\ (exists l, snd (list_streets f s) = Ok l /\ Permutation l (streets (tx s)))
   /\ (exists l, snd (list_police_stations f s) = Ok l
                 /\ Permutation l (police_stations (tx s))))
  /\ (forall p, f = Some p -> p <> 0 -> int64 p ->
      ((forall x, In x (neighborhoods (tx s)) -> Neighborhood.city_id x <> p) ->
       snd (list_neighborhoods f s) = Ok [])
      /\ ((forall x, In x (streets (tx s)) -> Street.neighborhood_id x <> p) ->
          snd (list_streets f s) = Ok [])
      /\ ((forall x, In x (police_stations (tx s)) -> PoliceStation.city_id x <> Some p) ->
          snd (list_police_stations f s) = Ok [])).
Proof.
  split.
  - intros Hf; assert (Ht : Py.truthy f = false) by (destruct Hf; subst f; reflexivity).
    unfold list_neighborhoods, list_streets, list_police_stations, bind, select, expunge_all,
      ret; cbn [snd]; rewrite Ht.
    repeat split; eexists; (split; [reflexivity | apply order_by_perm]).
  - intros p -> Hp _.
    assert (Ht : Py.truthy (Some p) = true)
      by (simpl; destruct (Z.eqb_spec p 0); [contradiction | reflexivity]).
    unfold list_neighborhoods, list_streets, list_police_stations, bind, select, expunge_all,
      ret; cbn [snd]; rewrite Ht.
    repeat split; intros H; rewrite filter_none; try reflexivity; intros x Hx;
      apply H in Hx; simpl.
    + now apply Z.eqb_neq.
    + now apply Z.eqb_neq.
    + destruct (PoliceStation.city_id x) as [c|]; [|reflexivity].
      apply Z.eqb_neq; congruence.
Qed.

Lemma list_parent_filter_witness :
  ((exists l, snd (list_neighborhoods None (SessionLocal springfield)) = Ok l
              /\ Permutation l (neighborhoods springfield))
   /\ (exists l, snd (list_streets None (SessionLocal springfield)) = Ok l
                 /\ Permutation l (streets springfield))
   /\ (exists l, snd (list_police_stations None (SessionLocal springfield)) = Ok l
                 /\ Permutation l (police_stations springfield)))
  /\ snd (list_neighborhoods (Some 7) (SessionLocal springfield)) = Ok []
  /\ snd (list_streets (Some 7) (SessionLocal springfield)) = Ok []
  /\ snd (list_police_stations (Some 7) (SessionLocal springfield)) = Ok [].
Proof.
  split; [|split; [|split]].
  - apply (proj1 (list_parent_filter (SessionLocal springfield) None)); now left.
  - apply (proj2 (list_parent_filter (SessionLocal springfield) (Some 7)) 7 eq_refl);
      [lia | unfold int64; lia |]; simpl; intros x [<-|[<-|[]]]; simpl; lia.
  - apply (proj2 (list_parent_filter (SessionLocal springfield) (Some 7)) 7 eq_refl);
      [lia | unfold int64; lia |]; simpl; intros x [<-|[<-|[]]]; simpl; lia.
  - apply (proj2 (list_parent_filter (SessionLocal springfield) (Some 7)) 7 eq_refl);
      [lia | unfold int64; lia |]; simpl; intros x [<-|[<-|[<-|[]]]]; simpl; congruence.
Defined.

(** C7 as stated fails: the filter 0 is present and equals the parent
    reference of no stored row, and the list is not empty: every
    neighborhood comes back. *)
Lemma list_filter_zero_counterexample :
  (forall x, In x (neighborhoods springfield) -> Neighborhood.city_id x <> 0)
  /\ snd (list_neighborhoods (Some 0) (SessionLocal springfield))
     = Ok [Neighborhood.mk 1 "Downtown" 1; Neighborhood.mk 2 "Uptown" 2]
  /\ snd (list_neighborhoods (Some 0) (SessionLocal springfield)) <> Ok [].
Proof.
  split; [|split; [reflexivity | vm_compute; discriminate]].
  simpl; intros x [<-|[<-|[]]]; simpl; lia.
Qed.

(** ** Normalising twice *)

Lemma lstrip_fixed (s : string) : no_space (first_char s) -> Py.lstrip s = s.
Proof. destruct s as [|c r]; simpl; [reflexivity|]; intros ->; reflexivity. Qed.

Lemma rstrip_cons (c : ascii) (r : string) :
  Py.rstrip (String c r)
  = match Py.rstrip r with
    | EmptyString => if Py.isspace c then EmptyString else String c EmptyString
    | String d r' => String c (String d r')
    end.
Proof. reflexivity. Qed.

Lemma rstrip_fixed (s : string) : no_space (last_char s) -> Py.rstrip s = s.
Proof.
  induction s as [|c r IH]; [reflexivity|].
  destruct r as [|d r'].
  - simpl; intros ->; reflexivity.
  - intros H; rewrite rstrip_cons, (IH H); reflexivity.
Qed.

Lemma strip_strip (s : string) : Py.strip (Py.strip s) = Py.strip s.
Proof.
  destruct (strip_trimmed s) as (pre & post & _ & _ & _ & Hf & Hl).
  unfold Py.strip at 1; rewrite (lstrip_fixed _ Hf); now apply rstrip_fixed.
Qed.

Lemma norm_opt_norm_opt (x : option string) : norm_opt (norm_opt x) = norm_opt x.
Proof.
  unfold norm_opt.
  destruct (Py.strip (Py.or_empty x)) as [|c r] eqn:E; [reflexivity|].
  cbn [Py.or_None Py.or_empty]; rewrite <- E, strip_strip, E; reflexivity.
Qed.

(** X1: [strip] and the normalisation of an optional field are idempotent:
    a value that comes out of the repository goes back in unchanged. *)
Theorem normalisation_idempotent :
  (forall s, Py.strip (Py.strip s) = Py.strip s)
  /\ (forall x, norm_opt (norm_opt x) = norm_opt x).
Proof. split; [exact strip_strip | exact norm_opt_norm_opt]. Qed.

(** ** One unit of work seen from the store *)

Lemma delete_neighborhood_run (db : DB) (i : Z) :
  get_session None (block (delete_neighborhood i)) db
  = match find (fun n => Neighborhood.id n =? i) (neighborhoods db) with
    | None => (rolled_back db, Raised (ValueError "Neighborhood not found"))
    | Some n =>
        (committed_as (flush_rows (delete_order (cascade_neighborhood db n)) db),
         Completed tt)
    end.
Proof.
  unfold get_session, block, delete_neighborhood, bind, get_neighborhood, select;
    cbn [fst snd tx SessionLocal].
  destruct (find _ (neighborhoods db)); reflexivity.
Qed.

Lemma delete_street_run (db : DB) (i : Z) :
  get_session None (block (delete_street i)) db
  = match find (fun x => Street.id x =? i) (streets db) with
    | None => (rolled_back db, Raised (ValueError "Street not found"))
    | Some x => (committed_as (delete_row (Streets, Street.id x) db), Completed tt)
    end.
Proof.
  unfold get_session, block, delete_street, bind, get_street, select;
    cbn [fst snd tx SessionLocal].
  destruct (find _ (streets db)); reflexivity.
Qed.

Lemma delete_police_station_run (db : DB) (i : Z) :
  get_session None (block (delete_police_station i)) db
  = match find (fun p => PoliceStation.id p =? i) (police_stations db) with
    | None => (rolled_back db, Raised (ValueError "Police station not found"))
    | Some p =>
        (committed_as (delete_row (PoliceStations, PoliceStation.id p) db), Completed tt)
    end.
Proof.
  unfold get_session, block, delete_police_station, bind, get_police_station, select;
    cbn [fst snd tx SessionLocal].
  destruct (find _ (police_stations db)); reflexivity.
Qed.

Lemma delete_city_run_cases (db : DB) (i : Z) :
  get_session None (block (delete_city i)) db
  = match find (fun c => City.id c =? i) (cities db) with
    | None => (rolled_back db, Raised (ValueError "City not found"))
    | Some c =>
        (committed_as (flush_rows (delete_order (cascade_city db c)) db), Completed tt)
    end.
Proof.
  unfold get_session, block, delete_city, bind, get_city, select;
    cbn [fst snd tx SessionLocal].
  destruct (find _ (cities db)); reflexivity.
Qed.

(** A commit that the engine refuses leaves the store to what it was, if
    the body did not commit by itself. *)
Lemma get_session_commit_refused {A} (e : exn) (op : M A) (db : DB) :
  committed (fst (op (SessionLocal db))) = db ->
  store_after (get_session (Some e) (block op) db) = db.
Proof.
  unfold store_after, get_session, block.
  destruct (op (SessionLocal db)) as [s [a|e']]; cbn [fst snd]; intros H.
  - unfold commit; destruct (is_Exception e); simpl; exact H.
  - destruct (is_Exception e'); simpl; exact H.
Qed.

Ltac keeps_committed :=
  intros;
  unfold create_city, update_city, delete_city, create_neighborhood, update_neighborhood,
    delete_neighborhood, create_street, update_street, delete_street,
    create_police_station, update_police_station, delete_police_station,
    list_cities, list_neighborhoods, list_streets, list_police_stations,
    add_flush_city, add_flush_neighborhood, add_flush_street, add_flush_police_station,
    flush_city, flush_neighborhood, flush_street, flush_police_station,
    delete_city_obj, delete_neighborhood_obj, delete_street_obj, delete_police_station_obj,
    mark_deleted, get_city, get_neighborhood, get_street, get_police_station,
    expunge_all, bind, select, raise, ret, flush_failed;
  cbn [fst snd];
  repeat match goal with
    | |- context [find ?f ?l] => destruct (find f l); cbn [fst snd]
    | |- context [if ?b then _ else _] => destruct b; cbn [fst snd]
    end;
  repeat split.

(** X2: no repository function commits, rolls back or closes the session it
    is given: the committed store, the call log and the open state are as
    before whatever the function returns or raises.  Ending the transaction
    is left to [get_session]. *)
Theorem repository_leaves_transaction_open (s : Session) :
  let untouched {A} (r : Session * result A) :=
    committed (fst r) = committed s /\ log (fst r) = log s /\ closed (fst r) = closed s in
  untouched (list_cities s)
  /\ (forall n st co, untouched (create_city n st co s))
  /\ (forall i n st co, untouched (update_city i n st co s))
  /\ (forall i, untouched (delete_city i s))
  /\ (forall f, untouched (list_neighborhoods f s))
  /\ (forall n c, untouched (create_neighborhood n c s))
  /\ (forall i n c, untouched (update_neighborhood i n c s))
  /\ (forall i, untouched (delete_neighborhood i s))
  /\ (forall f, untouched (list_streets f s))
  /\ (forall n b, untouched (create_street n b s))
  /\ (forall i n b, untouched (update_street i n b s))
  /\ (forall i, untouched (delete_street i s))
  /\ (forall f, untouched (list_police_stations f s))
  /\ (forall n c a, untouched (create_police_station n c a s))
  /\ (forall i n c a, untouched (update_police_station i n c a s))
  /\ (forall i, untouched (delete_police_station i s)).
Proof. cbv zeta; repeat match goal with |- _ /\ _ => split end; keeps_committed. Qed.

Lemma find_id_In {A} (id : A -> Z) (l : list A) (i : Z) (x : A) :
  find (fun y => id y =? i) l = Some x -> In x l /\ id x = i.
Proof. intros H; apply find_some in H; destruct H; split; [assumption | now apply Z.eqb_eq]. Qed.

(** Every unit of work of one repository call is one of the transitions. *)
Lemma serve_transition (io : option exn) (q : request) (db : DB) :
  transition db (serve io q db).
Proof.
  destruct io as [e|].
  - replace (serve (Some e) q db) with db; [constructor|].
    symmetry; destruct q; unfold serve; apply get_session_commit_refused;
      keeps_committed.
  - destruct q; unfold serve, store_after.
    + rewrite create_city_run; cbv zeta.
      destruct (existsb _ _) eqn:E; cbn [fst committed rolled_back committed_as];
        [constructor|].
      apply t_insert_city; cbn [City.id City.name City.state City.country];
        auto using strip_strip, norm_opt_norm_opt.
    + rewrite update_city_run; destruct (find _ _) as [c|] eqn:Hf; [|constructor].
      cbv zeta; destruct (existsb _ _) eqn:E; cbn [fst committed rolled_back committed_as];
        [constructor|].
      apply (t_update_city db (City.mk (City.id c) _ _ _));
        cbn [City.id City.name City.state City.country];
        auto using strip_strip, norm_opt_norm_opt.
    + rewrite delete_city_run_cases; destruct (find _ _); constructor.
    + rewrite create_neighborhood_run; cbv zeta.
      destruct (existsb _ _) eqn:E; [constructor|].
      destruct (has_city db city_id) eqn:Hc; cbn [fst committed rolled_back committed_as];
        [|constructor].
      apply t_insert_neighborhood;
        cbn [Neighborhood.id Neighborhood.name Neighborhood.city_id];
        auto using strip_strip.
    + rewrite update_neighborhood_run; destruct (find _ _) as [n|] eqn:Hf; [|constructor].
      cbv zeta; destruct (existsb _ _) eqn:E; [constructor|].
      destruct (has_city db city_id) eqn:Hc; cbn [fst committed rolled_back committed_as];
        [|constructor].
      apply (t_update_neighborhood db (Neighborhood.mk (Neighborhood.id n) _ _));
        cbn [Neighborhood.id Neighborhood.name Neighborhood.city_id];
        auto using strip_strip.
    + rewrite delete_neighborhood_run; destruct (find _ _); constructor.
    + rewrite create_street_run; cbv zeta.
      destruct (existsb _ _) eqn:E; [constructor|].
      destruct (has_neighborhood db neighborhood_id) eqn:Hc;
        cbn [fst committed rolled_back committed_as]; [|constructor].
      apply t_insert_street; cbn [Street.id Street.name Street.neighborhood_id];
        auto using strip_strip.
    + rewrite update_street_run; destruct (find _ _) as [x|] eqn:Hf; [|constructor].
      cbv zeta; destruct (existsb _ _) eqn:E; [constructor|].
      destruct (has_neighborhood db neighborhood_id) eqn:Hc;
        cbn [fst committed rolled_back committed_as]; [|constructor].
      apply (t_update_street db (Street.mk (Street.id x) _ _));
        cbn [Street.id Street.name Street.neighborhood_id];
        auto using strip_strip.
    + rewrite delete_street_run; destruct (find _ _); [|constructor].
      apply (t_delete db [_]).
    + rewrite create_police_station_run; cbv zeta.
      destruct (existsb _ _) eqn:E; [constructor|].
      destruct (fk_city_opt db city_id) eqn:Hc;
        cbn [fst committed rolled_back committed_as]; [|constructor].
      apply t_insert_police_station;
        cbn [PoliceStation.id PoliceStation.name PoliceStation.city_id PoliceStation.address];
        auto using strip_strip, norm_opt_norm_opt.
    + rewrite update_police_station_run; destruct (find _ _) as [p|] eqn:Hf; [|constructor].
      cbv zeta; destruct (existsb _ _) eqn:E; [constructor|].
      destruct (fk_city_opt db city_id) eqn:Hc;
        cbn [fst committed rolled_back committed_as]; [|constructor].
      apply (t_update_police_station db (PoliceStation.mk (PoliceStation.id p) _ _ _));
        cbn [PoliceStation.id PoliceStation.name PoliceStation.city_id PoliceStation.address];
        auto using strip_strip, norm_opt_norm_opt.
    + rewrite delete_police_station_run; destruct (find _ _); [|constructor].
      apply (t_delete db [_]).
Qed.

(** ** Primary keys *)

Lemma keys_ok_filter {A} (id : A -> Z) (f : A -> bool) (l : list A) :
  keys_ok (map id l) -> keys_ok (map id (filter f l)).
Proof.
  intros [Hn Hp]; split.
  - induction l as [|a l IH]; simpl in *; [constructor|].
    inversion Hn as [|? ? Ha Hl]; subst.
    destruct (f a); simpl; [constructor|]; auto.
    rewrite in_map_iff; intros (x & Hx & Hin); apply filter_In in Hin.
    apply Ha; rewrite <- Hx; apply in_map; tauto.
  - intros i Hi; apply Hp; rewrite in_map_iff in *.
    destruct Hi as (x & Hx & Hin); apply filter_In in Hin; exists x; tauto.
Qed.

Lemma next_rowid_positive (ids : list Z) :
  (forall i, In i ids -> 1 <= i) -> 1 <= next_rowid ids.
Proof.
  destruct ids as [|i r]; simpl; [lia|]; intros H.
  destruct (fold_max_ge i r) as [Hi _]; specialize (H i (or_introl eq_refl)); lia.
Qed.

Lemma keys_ok_insert (ids : list Z) : keys_ok ids -> keys_ok (ids ++ [next_rowid ids]).
Proof.
  intros [Hn Hp]; split.
  - apply NoDup_app; repeat split; [assumption | repeat constructor; intros [] |].
    intros a Ha [<-|[]]; apply next_rowid_fresh in Ha; lia.
  - intros i Hi; apply in_app_or in Hi; destruct Hi as [Hi|[<-|[]]]; [auto|].
    now apply next_rowid_positive.
Qed.

Lemma keys_ok_insert_row {A} (id : A -> Z) (l : list A) (row : A) :
  id row = next_rowid (map id l) -> keys_ok (map id l) -> keys_ok (map id (l ++ [row])).
Proof. intros H Hk; rewrite map_app; simpl; rewrite H; now apply keys_ok_insert. Qed.

Lemma keys_ok_update_row {A} (id : A -> Z) (l : list A) (row : A) :
  keys_ok (map id l) ->
  keys_ok (map id (map (fun x => if id x =? id row then row else x) l)).
Proof. intros H; now rewrite replaced_row_ids. Qed.

Lemma delete_row_primary_keys (r : table * Z) (db : DB) :
  primary_keys db -> primary_keys (delete_row r db).
Proof.
  intros (Hc & Hn & Hs & Hp); row_cases r; unfold primary_keys;
    cbn [cities neighborhoods streets police_stations];
    repeat match goal with |- _ /\ _ => split end;
    try assumption; try (apply keys_ok_filter; assumption).
  rewrite map_map; erewrite map_ext; [exact Hp|].
  intros p; simpl; destruct (sql_eq _ _ _); reflexivity.
Qed.

Lemma flush_rows_primary_keys (d : list (table * Z)) :
  forall db, primary_keys db -> primary_keys (flush_rows d db).
Proof.
  induction d as [|r d IH]; intros db H; [assumption|].
  rewrite flush_rows_cons; apply IH, delete_row_primary_keys, H.
Qed.

Lemma transition_primary_keys (db db' : DB) :
  transition db db' -> primary_keys db -> primary_keys db'.
Proof.
  intros Ht Hk; destruct Ht; try assumption;
    [now apply flush_rows_primary_keys | ..];
    destruct Hk as (Hc & Hn & Hs & Hp); unfold primary_keys;
    cbn [cities neighborhoods streets police_stations];
    repeat match goal with |- _ /\ _ => split end; try assumption;
    (now apply keys_ok_insert_row) || (now apply keys_ok_update_row).
Qed.

(** ** Foreign keys *)

Lemma has_city_iff (db : DB) (j : Z) :
  has_city db j = true <-> exists c, In c (cities db) /\ City.id c = j.
Proof.
  unfold has_city; rewrite existsb_exists; split; intros (c & Hin & Hc); exists c;
    (split; [assumption | now apply Z.eqb_eq]).
Qed.

Lemma has_neighborhood_iff (db : DB) (j : Z) :
  has_neighborhood db j = true <-> exists n, In n (neighborhoods db) /\ Neighborhood.id n = j.
Proof.
  unfold has_neighborhood; rewrite existsb_exists; split; intros (c & Hin & Hc); exists c;
    (split; [assumption | now apply Z.eqb_eq]).
Qed.

Lemma fk_city_opt_iff (db : DB) (r : option Z) :
  fk_city_opt db r = true <-> forall j, r = Some j -> exists c, In c (cities db) /\ City.id c = j.
Proof.
  destruct r as [j|]; simpl.
  - rewrite has_city_iff; split; [intros H k Hk; injection Hk as <-; exact H|].
    intros H; now apply H.
  - split; [discriminate | reflexivity].
Qed.

(** The references of a store, read as statements about rows. *)
Lemma references_iff (db : DB) :
  references db <->
  (forall n, In n (neighborhoods db) ->
     exists c, In c (cities db) /\ City.id c = Neighborhood.city_id n)
  /\ (forall x, In x (streets db) ->
      exists n, In n (neighborhoods db) /\ Neighborhood.id n = Street.neighborhood_id x)
  /\ (forall p j, In p (police_stations db) -> PoliceStation.city_id p = Some j ->
      exists c, In c (cities db) /\ City.id c = j).
Proof.
  unfold references; split; intros (Hn & Hs & Hp); repeat split.
  - intros n H; now apply has_city_iff, Hn.
  - intros x H; now apply has_neighborhood_iff, Hs.
  - intros p j H Hj; apply Hp in H; rewrite fk_city_opt_iff in H; now apply H.
  - intros n H; now apply has_city_iff, Hn.
  - intros x H; now apply has_neighborhood_iff, Hs.
  - intros p H; apply fk_city_opt_iff; intros j Hj; now apply (Hp p j).
Qed.

Lemma replaced_row_member {A} (id : A -> Z) (l : list A) (row x : A) :
  In x (map (fun y => if id y =? id row then row else y) l) ->
  (x = row /\ exists y, In y l /\ id y = id row) \/ (In x l /\ id x <> id row).
Proof.
  rewrite in_map_iff; intros (y & Hy & Hin).
  destruct (Z.eqb_spec (id y) (id row)); subst; [left | right]; eauto.
Qed.

Lemma replaced_row_keeps_ids {A} (id : A -> Z) (l : list A) (row y : A) :
  In y l -> exists x, In x (map (fun y => if id y =? id row then row else y) l) /\ id x = id y.
Proof.
  intros Hin; exists (if id y =? id row then row else y); split.
  - apply in_map_iff; now exists y.
  - destruct (Z.eqb_spec (id y) (id row)); congruence.
Qed.

Lemma delete_row_references (r : table * Z) (db : DB) :
  references db -> references (delete_row r db).
Proof.
  intros Hr; pose proof Hr as Hr'; revert Hr'.
  rewrite !references_iff; intros (Hn & Hs & Hp).
  destruct r as [[] i]; unfold delete_row.
  - (* a city goes: its neighborhoods and their streets go with it *)
    destruct (has_city db i) eqn:Hc; [|now apply references_iff].
    cbn [cities neighborhoods streets police_stations]; repeat split.
    + intros n Hin; apply filter_In in Hin; destruct Hin as [Hin Hne].
      destruct (Hn n Hin) as (c & Hcin & Hcid); exists c; split; [|assumption].
      apply filter_In; split; [assumption|]. now rewrite Hcid.
    + intros x Hin; apply filter_In in Hin; destruct Hin as [Hin Hne].
      destruct (Hs x Hin) as (n & Hnin & Hnid); exists n; split; [|assumption].
      apply filter_In; split; [assumption|].
      destruct (Neighborhood.city_id n =? i) eqn:E; [exfalso|reflexivity].
      apply negb_true_iff in Hne; rewrite <- not_true_iff_false in Hne; apply Hne.
      apply existsb_exists.
      exists n; split; [apply filter_In; tauto | now apply Z.eqb_eq].
    + intros p j Hin Hj; apply in_map_iff in Hin; destruct Hin as (q & Hq & Hin).
      destruct (PoliceStation.city_id q) as [k|] eqn:Hk; simpl in Hq.
      * destruct (Z.eqb_spec k i); subst p; simpl in Hj; [discriminate|].
        rewrite Hk in Hj; injection Hj as <-.
        destruct (Hp q k Hin Hk) as (c & Hcin & Hcid); exists c; split; [|assumption].
        apply filter_In; split; [assumption|].
        apply negb_true_iff, Z.eqb_neq; congruence.
      * subst p; congruence.
  - (* a neighborhood goes: its streets go with it *)
    cbn [cities neighborhoods streets police_stations]; repeat split; [| |assumption].
    + intros n Hin; apply filter_In in Hin; now apply Hn.
    + destruct (has_neighborhood db i) eqn:Hb.
      * intros x Hin; apply filter_In in Hin; destruct Hin as [Hin Hne].
        destruct (Hs x Hin) as (n & Hnin & Hnid); exists n; split; [|assumption].
        apply filter_In; split; [assumption|]. now rewrite Hnid.
      * intros x Hin; destruct (Hs x Hin) as (n & Hnin & Hnid).
        exists n; split; [|assumption]. apply filter_In; split; [assumption|].
        apply negb_true_iff, Z.eqb_neq.
        now apply (existsb_id_false Neighborhood.id _ _ _ Hb).
  - cbn [cities neighborhoods streets police_stations]; repeat split;
      [assumption | | assumption].
    intros x Hin; apply filter_In in Hin; now apply Hs.
  - cbn [cities neighborhoods streets police_stations]; repeat split;
      [assumption | assumption |].
    intros p j Hin; apply filter_In in Hin; now apply Hp.
Qed.

Lemma flush_rows_references (d : list (table * Z)) :
  forall db, references db -> references (flush_rows d db).
Proof.
  induction d as [|r d IH]; intros db H; [assumption|].
  rewrite flush_rows_cons; apply IH, delete_row_references, H.
Qed.

Lemma transition_references (db db' : DB) :
  transition db db' -> references db -> references db'.
Proof.
  intros Ht Hr; destruct Ht; try assumption; [now apply flush_rows_references | ..];
    repeat match goal with
      | H : has_city _ _ = true |- _ => apply has_city_iff in H
      | H : has_neighborhood _ _ = true |- _ => apply has_neighborhood_iff in H
      | H : fk_city_opt _ _ = true |- _ => rewrite fk_city_opt_iff in H
      end;
    apply references_iff in Hr; apply references_iff; destruct Hr as (Hn & Hs & Hp);
    cbn [cities neighborhoods streets police_stations];
    repeat match goal with |- _ /\ _ => split end; try assumption.
  - intros n Hin; destruct (Hn n Hin) as (c & Hc & Hid); exists c; split; [|assumption].
    apply in_or_app; now left.
  - intros p j Hin Hj; destruct (Hp p j Hin Hj) as (c & Hc & Hid); exists c; split; [|assumption].
    apply in_or_app; now left.
  - intros n Hin; apply in_app_or in Hin; destruct Hin as [Hin|[<-|[]]]; auto.
  - intros x Hin; destruct (Hs x Hin) as (n & Hc & Hid); exists n; split; [|assumption].
    apply in_or_app; now left.
  - intros x Hin; apply in_app_or in Hin; destruct Hin as [Hin|[<-|[]]]; auto.
  - intros p j Hin Hj; apply in_app_or in Hin; destruct Hin as [Hin|[<-|[]]]; eauto.
  - intros n Hin; destruct (Hn n Hin) as (c & Hc & Hid).
    destruct (replaced_row_keeps_ids City.id _ row c Hc) as (c' & Hc' & Hid').
    exists c'; split; [assumption | congruence].
  - intros p j Hin Hj; destruct (Hp p j Hin Hj) as (c & Hc & Hid).
    destruct (replaced_row_keeps_ids City.id _ row c Hc) as (c' & Hc' & Hid').
    exists c'; split; [assumption | congruence].
  - intros n Hin; apply replaced_row_member in Hin.
    destruct Hin as [[-> _] | [Hin _]]; auto.
  - intros x Hin; destruct (Hs x Hin) as (n & Hc & Hid).
    destruct (replaced_row_keeps_ids Neighborhood.id _ row n Hc) as (n' & Hn' & Hid').
    exists n'; split; [assumption | congruence].
  - intros x Hin; apply replaced_row_member in Hin.
    destruct Hin as [[-> _] | [Hin _]]; auto.
  - intros p j Hin Hj; apply replaced_row_member in Hin.
    destruct Hin as [[-> _] | [Hin _]]; eauto.
Qed.

(** ** Unique constraints *)

Lemma sql_eq_sym {A} (eqb : A -> A -> bool) (x y : option A) :
  (forall a b, eqb a b = eqb b a) -> sql_eq eqb x y = sql_eq eqb y x.
Proof. intros H; destruct x, y; simpl; auto. Qed.

Lemma uq_city_sym (a b : City.t) :
  uq_city_name_state_country a b = uq_city_name_state_country b a.
Proof.
  unfold uq_city_name_state_country.
  rewrite (String.eqb_sym (City.name a)).
  rewrite (sql_eq_sym String.eqb (City.state a) _ String.eqb_sym).
  now rewrite (sql_eq_sym String.eqb (City.country a) _ String.eqb_sym).
Qed.

Lemma uq_neighborhood_sym (a b : Neighborhood.t) :
  uq_neighborhood_name_city a b = uq_neighborhood_name_city b a.
Proof.
  unfold uq_neighborhood_name_city.
  now rewrite (String.eqb_sym (Neighborhood.name a)), (Z.eqb_sym (Neighborhood.city_id a)).
Qed.

Lemma uq_street_sym (a b : Street.t) :
  uq_street_name_neighborhood a b = uq_street_name_neighborhood b a.
Proof.
  unfold uq_street_name_neighborhood.
  now rewrite (String.eqb_sym (Street.name a)), (Z.eqb_sym (Street.neighborhood_id a)).
Qed.

Lemma uq_police_station_sym (a b : PoliceStation.t) :
  uq_police_station_name_city a b = uq_police_station_name_city b a.
Proof.
  unfold uq_police_station_name_city.
  rewrite (String.eqb_sym (PoliceStation.name a)).
  now rewrite (sql_eq_sym Z.eqb (PoliceStation.city_id a) _ Z.eqb_sym).
Qed.

Section UniqueRows.
Context {A : Type} (id : A -> Z) (uq : A -> A -> bool).
Hypothesis uq_sym : forall a b, uq a b = uq b a.

Lemma unique_rows_filter (f : A -> bool) (l : list A) :
  unique_rows id uq l -> unique_rows id uq (filter f l).
Proof.
  intros H a b Ha Hb; apply filter_In in Ha, Hb; apply H; tauto.
Qed.

Lemma existsb_false_In (f : A -> bool) (l : list A) (x : A) :
  existsb f l = false -> In x l -> f x = false.
Proof.
  intros He Hin; destruct (f x) eqn:E; [|reflexivity].
  rewrite <- He; symmetry; apply existsb_exists; now exists x.
Qed.

Lemma unique_rows_insert (l : list A) (row : A) :
  unique_rows id uq l -> existsb (uq row) l = false -> unique_rows id uq (l ++ [row]).
Proof.
  intros H He a b Ha Hb Hu; apply in_app_or in Ha, Hb.
  destruct Ha as [Ha|[<-|[]]], Hb as [Hb|[<-|[]]]; auto.
  - rewrite uq_sym, (existsb_false_In _ _ _ He Ha) in Hu; discriminate.
  - rewrite (existsb_false_In _ _ _ He Hb) in Hu; discriminate.
Qed.

Lemma unique_rows_update (l : list A) (row : A) :
  unique_rows id uq l ->
  existsb (fun x => negb (id x =? id row) && uq row x) l = false ->
  unique_rows id uq (map (fun x => if id x =? id row then row else x) l).
Proof.
  intros H He a b Ha Hb Hu; apply replaced_row_member in Ha, Hb.
  assert (Hold : forall x, In x l -> id x <> id row -> uq row x = false).
  { intros x Hx Hne; pose proof (existsb_false_In _ _ _ He Hx) as E; simpl in E.
    apply Z.eqb_neq in Hne; now rewrite Hne in E. }
  destruct Ha as [[-> _]|[Ha Hna]], Hb as [[-> _]|[Hb Hnb]]; auto.
  - rewrite (Hold b Hb Hnb) in Hu; discriminate.
  - rewrite uq_sym, (Hold a Ha Hna) in Hu; discriminate.
Qed.

End UniqueRows.

Lemma delete_row_uniques (r : table * Z) (db : DB) : uniques db -> uniques (delete_row r db).
Proof.
  intros (Hc & Hn & Hs & Hp); row_cases r; unfold uniques;
    cbn [cities neighborhoods streets police_stations];
    repeat match goal with |- _ /\ _ => split end;
    try assumption; try (now apply unique_rows_filter).
  intros a b Ha Hb Hu; apply in_map_iff in Ha, Hb.
  destruct Ha as (a0 & <- & Ha), Hb as (b0 & <- & Hb).
  unfold uq_police_station_name_city in Hu.
  destruct (sql_eq Z.eqb (PoliceStation.city_id a0) (Some i));
    [simpl in Hu; rewrite andb_false_r in Hu; discriminate|].
  destruct (sql_eq Z.eqb (PoliceStation.city_id b0) (Some i)).
  - simpl in Hu; destruct (PoliceStation.city_id a0); simpl in Hu;
      rewrite andb_false_r in Hu; discriminate.
  - now apply Hp.
Qed.

Lemma flush_rows_uniques (d : list (table * Z)) :
  forall db, uniques db -> uniques (flush_rows d db).
Proof.
  induction d as [|r d IH]; intros db H; [assumption|].
  rewrite flush_rows_cons; apply IH, delete_row_uniques, H.
Qed.

Lemma transition_uniques (db db' : DB) : transition db db' -> uniques db -> uniques db'.
Proof.
  intros Ht Hu; destruct Ht; try assumption; [now apply flush_rows_uniques | ..];
    destruct Hu as (Hc & Hn & Hs & Hp); unfold uniques;
    cbn [cities neighborhoods streets police_stations];
    repeat match goal with |- _ /\ _ => split end; try assumption;
    (apply unique_rows_insert || apply unique_rows_update);
    auto using uq_city_sym, uq_neighborhood_sym, uq_street_sym, uq_police_station_sym.
Qed.

(** ** Stored text *)

Lemma delete_row_normalized (r : table * Z) (db : DB) :
  normalized db -> normalized (delete_row r db).
Proof.
  intros (Hc & Hn & Hs & Hp); row_cases r; unfold normalized;
    cbn [cities neighborhoods streets police_stations];
    repeat match goal with |- _ /\ _ => split end; try assumption;
    try (intros x Hx; apply filter_In in Hx; destruct Hx as [Hx _]; auto; fail).
  intros p Hin; apply in_map_iff in Hin; destruct Hin as (q & <- & Hq).
  destruct (sql_eq _ _ _); simpl; auto.
Qed.

Lemma flush_rows_normalized (d : list (table * Z)) :
  forall db, normalized db -> normalized (flush_rows d db).
Proof.
  induction d as [|r d IH]; intros db H; [assumption|].
  rewrite flush_rows_cons; apply IH, delete_row_normalized, H.
Qed.

Lemma transition_normalized (db db' : DB) :
  transition db db' -> normalized db -> normalized db'.
Proof.
  intros Ht Hu; destruct Ht; try assumption; [now apply flush_rows_normalized | ..];
    destruct Hu as (Hc & Hn & Hs & Hp); unfold normalized;
    cbn [cities neighborhoods streets police_stations];
    repeat match goal with |- _ /\ _ => split end; try assumption;
    intros x Hx;
    first [ apply in_app_or in Hx; destruct Hx as [Hx|[<-|[]]]
          | apply replaced_row_member in Hx; destruct Hx as [[-> _]|[Hx _]] ];
    auto.
Qed.

(** ** Invariants of the reachable stores *)

(** X3: primary keys.  If the ids of every table are positive and pairwise
    different, they still are after any handler (create, update or delete
    of any entity type), whether its commit succeeds or not. *)
Theorem serve_keeps_primary_keys (io : option exn) (q : request) (db : DB) :
  primary_keys db -> primary_keys (serve io q db).
Proof. apply transition_primary_keys, serve_transition. Qed.

(** X4: referential integrity.  If every neighborhood's city, every street's
    neighborhood and every police station's city (when it has one) exists,
    the same holds after any handler: creates and updates are refused
    without their parent, and a delete takes the dependents with it. *)
Theorem serve_keeps_references (io : option exn) (q : request) (db : DB) :
  references db -> references (serve io q db).
Proof. apply transition_references, serve_transition. Qed.

(** X5: uniqueness.  If no two rows of a table collide on its unique
    constraint, none do after any handler. *)
Theorem serve_keeps_uniques (io : option exn) (q : request) (db : DB) :
  uniques db -> uniques (serve io q db).
Proof. apply transition_uniques, serve_transition. Qed.

(** X6: stored text.  If every stored name is trimmed and every stored
    optional text is trimmed and non-empty or absent, the same holds after
    any handler. *)
Theorem serve_keeps_normalized (io : option exn) (q : request) (db : DB) :
  normalized db -> normalized (serve io q db).
Proof. apply transition_normalized, serve_transition. Qed.

Lemma empty_store_ok :
  primary_keys Sqlite.empty /\ references Sqlite.empty
  /\ uniques Sqlite.empty /\ normalized Sqlite.empty.
Proof.
  unfold primary_keys, keys_ok, references, uniques, unique_rows, normalized; simpl.
  repeat split; try constructor; intros; contradiction.
Qed.

(** X7: every store reached from the empty database of [init_db] by any
    run of handlers has positive, pairwise different ids, resolving
    references, no collision on a unique constraint and normalised text. *)
Theorem reachable_store_ok (qs : list (option exn * request)) :
  let db := serve_all qs Sqlite.empty in
  primary_keys db /\ references db /\ uniques db /\ normalized db.
Proof.
  cbv zeta; unfold serve_all.
  generalize empty_store_ok; generalize Sqlite.empty.
  induction qs as [|[io q] qs IH]; intros db H; [exact H|].
  simpl; apply IH; destruct H as (Hk & Hr & Hu & Hn).
  pose proof (serve_transition io q db) as Ht.
  split; [|split; [|split]];
    [eapply transition_primary_keys | eapply transition_references
     | eapply transition_uniques | eapply transition_normalized]; eassumption.
Qed.

Ltac concrete_store :=
  unfold primary_keys, keys_ok, references, uniques, unique_rows, normalized; simpl;
  repeat match goal with
    | |- _ /\ _ => split
    | |- NoDup _ => constructor
    | |- ~ _ => simpl; intros H; intuition discriminate
    | |- forall _, _ => intro
    | H : _ \/ _ |- _ => destruct H
    | H : False |- _ => destruct H
    | H : _ = _ |- _ => subst
    end;
  simpl in *; try reflexivity; try lia; try discriminate.

Lemma serve_keeps_primary_keys_witness :
  primary_keys (serve None (DeleteCity 1) springfield).
Proof. apply serve_keeps_primary_keys; concrete_store. Defined.

Lemma serve_keeps_references_witness :
  references (serve None (DeleteCity 1) springfield).
Proof. apply serve_keeps_references; concrete_store. Defined.

Lemma serve_keeps_uniques_witness :
  uniques (serve None (UpdateCity 2 "Springfield" (Some "OH"%string) (Some "US"%string))
                 springfield).
Proof. apply serve_keeps_uniques; concrete_store. Defined.

Lemma serve_keeps_normalized_witness :
  normalized (serve None (CreateStreet "  Oak St " 2) springfield).
Proof. apply serve_keeps_normalized; concrete_store. Defined.

(** ** The order and the content of the lists *)

Section Sorting.
Context {A : Type} (key : A -> string).

Lemma insert_by_hd (x a : A) (l : list A) :
  name_le key a x -> HdRel (name_le key) a l -> HdRel (name_le key) a (insert_by key x l).
Proof.
  intros Hax Hl; destruct l as [|y r]; simpl; [now constructor|].
  destruct (String.leb (key x) (key y)); constructor; [assumption|].
  now inversion Hl.
Qed.

Lemma insert_by_sorted (x : A) (l : list A) :
  Sorted (name_le key) l -> Sorted (name_le key) (insert_by key x l).
Proof.
  induction l as [|y r IH]; simpl; intros Hs; [repeat constructor|].
  destruct (String.leb (key x) (key y)) eqn:E.
  - constructor; [assumption | now constructor].
  - inversion Hs as [|? ? Hr Hy]; subst; constructor; [now apply IH|].
    apply insert_by_hd; [|assumption].
    unfold name_le; destruct (String.leb_total (key x) (key y)); congruence.
Qed.

Lemma order_by_sorted (l : list A) : Sorted (name_le key) (order_by key l).
Proof.
  induction l as [|x r IH]; simpl; [constructor | now apply insert_by_sorted].
Qed.

End Sorting.

(** X8: every list operation returns its rows in ascending order of name
    (code point order), whatever the filter within SQLite's integer range;
    [list_cities] returns every city of the table. *)
Theorem lists_sorted_by_name (s : Session) :
  (exists l, snd (list_cities s) = Ok l /\ Sorted (name_le City.name) l
             /\ Permutation l (cities (tx s)))
  /\ (forall f, opt_int64 f ->
      exists l, snd (list_neighborhoods f s) = Ok l /\ Sorted (name_le Neighborhood.name) l)
  /\ (forall f, opt_int64 f ->
      exists l, snd (list_streets f s) = Ok l /\ Sorted (name_le Street.name) l)
  /\ (forall f, opt_int64 f ->
      exists l, snd (list_police_stations f s) = Ok l
                /\ Sorted (name_le PoliceStation.name) l).
Proof.
  repeat split; intros; eexists; (split; [reflexivity|]);
    try apply order_by_sorted; try split; try apply order_by_sorted; apply order_by_perm.
Qed.

Lemma lists_sorted_by_name_witness :
  (exists l, snd (list_streets None (SessionLocal springfield)) = Ok l
             /\ Sorted (name_le Street.name) l)
  /\ (exists l, snd (list_police_stations (Some 2) (SessionLocal springfield)) = Ok l
                /\ Sorted (name_le PoliceStation.name) l).
Proof.
  pose proof (lists_sorted_by_name (SessionLocal springfield)) as (_ & _ & Hs & Hp).
  split.
  - apply Hs; intros p Hf; discriminate Hf.
  - apply Hp; intros p Hf; injection Hf as <-; unfold int64; lia.
Defined.

(** X9: with a parent filter that is present, not 0 and within SQLite's
    integer range, a list operation returns exactly the rows of the table
    whose parent reference is the filter: each of them, once per row, and no
    other. *)
Theorem list_filter_exact (s : Session) (p : Z) :
  p <> 0 -> int64 p ->
  (exists l, snd (list_neighborhoods (Some p) s) = Ok l
             /\ Permutation l (filter (fun n => Neighborhood.city_id n =? p)
                                      (neighborhoods (tx s)))
             /\ forall n, In n l <-> In n (neighborhoods (tx s)) /\ Neighborhood.city_id n = p)
  /\ (exists l, snd (list_streets (Some p) s) = Ok l
                /\ Permutation l (filter (fun x => Street.neighborhood_id x =? p)
                                         (streets (tx s)))
                /\ forall x, In x l <-> In x (streets (tx s)) /\ Street.neighborhood_id x = p)
  /\ (exists l, snd (list_police_stations (Some p) s) = Ok l
                /\ Permutation l (filter (fun q => sql_eq Z.eqb (PoliceStation.city_id q) (Some p))
                                         (police_stations (tx s)))
                /\ forall q, In q l <->
                             In q (police_stations (tx s)) /\ PoliceStation.city_id q = Some p).
Proof.
  intros Hp _.
  assert (Ht : Py.truthy (Some p) = true)
    by (simpl; destruct (Z.eqb_spec p 0); [contradiction | reflexivity]).
  unfold list_neighborhoods, list_streets, list_police_stations, bind, select, expunge_all,
    ret; cbn [snd]; rewrite Ht.
  repeat split; eexists; (split; [reflexivity|]); (split; [apply order_by_perm|]);
    intros x; rewrite order_by_In, filter_In; simpl;
    try rewrite Z.eqb_eq; try tauto.
  destruct (PoliceStation.city_id x) as [c|]; simpl; [rewrite Z.eqb_eq|];
    intuition congruence.
Qed.

Lemma list_filter_exact_witness :
  exists l, snd (list_streets (Some 2) (SessionLocal springfield)) = Ok l
            /\ Permutation l (filter (fun x => Street.neighborhood_id x =? 2)
                                     (streets springfield))
            /\ forall x, In x l <-> In x (streets springfield) /\ Street.neighborhood_id x = 2.
Proof.
  apply (list_filter_exact (SessionLocal springfield) 2); unfold int64; lia.
Defined.

(** X10: the ids of a store with positive primary keys are never taken for
    an absent filter: listing the neighborhoods (or police stations) of a
    stored city, or the streets of a stored neighborhood, returns exactly
    its own. *)
Theorem list_children_of_stored_parent (db : DB) :
  primary_keys db ->
  (forall c, In c (cities db) ->
     (exists l, snd (list_neighborhoods (Some (City.id c)) (SessionLocal db)) = Ok l
                /\ forall n, In n l <->
                             In n (neighborhoods db) /\ Neighborhood.city_id n = City.id c)
     /\ (exists l, snd (list_police_stations (Some (City.id c)) (SessionLocal db)) = Ok l
                   /\ forall q, In q l <->
                                In q (police_stations db)
                                /\ PoliceStation.city_id q = Some (City.id c)))
  /\ (forall n, In n (neighborhoods db) ->
      exists l, snd (list_streets (Some (Neighborhood.id n)) (SessionLocal db)) = Ok l
                /\ forall x, In x l <->
                             In x (streets db)
                             /\ Street.neighborhood_id x = Neighborhood.id n).
Proof.
  intros ((_ & Hc) & (_ & Hn) & _).
  assert (Hlist : forall p, 1 <= p ->
    (exists l, snd (list_neighborhoods (Some p) (SessionLocal db)) = Ok l
       /\ forall n, In n l <-> In n (neighborhoods db) /\ Neighborhood.city_id n = p)
    /\ (exists l, snd (list_streets (Some p) (SessionLocal db)) = Ok l
       /\ forall x, In x l <-> In x (streets db) /\ Street.neighborhood_id x = p)
    /\ (exists l, snd (list_police_stations (Some p) (SessionLocal db)) = Ok l
       /\ forall q, In q l <-> In q (police_stations db) /\ PoliceStation.city_id q = Some p)).
  { intros p Hp.
    assert (Ht : Py.truthy (Some p) = true)
      by (simpl; destruct (Z.eqb_spec p 0); [lia | reflexivity]).
    unfold list_neighborhoods, list_streets, list_police_stations, bind, select, expunge_all,
      ret; cbn [snd tx SessionLocal]; rewrite Ht.
    repeat split; eexists; (split; [reflexivity|]);
      intros x; rewrite order_by_In, filter_In; simpl;
      try rewrite Z.eqb_eq; try tauto.
    destruct (PoliceStation.city_id x) as [c|]; simpl; [rewrite Z.eqb_eq|];
      intuition congruence. }
  split.
  - intros c Hin; assert (Hp : 1 <= City.id c) by (apply Hc, in_map, Hin).
    destruct (Hlist _ Hp) as (H1 & _ & H3); split; assumption.
  - intros n Hin; assert (Hp : 1 <= Neighborhood.id n) by (apply Hn, in_map, Hin).
    now destruct (Hlist _ Hp) as (_ & H2 & _).
Qed.

Lemma list_children_of_stored_parent_witness :
  exists l, snd (list_neighborhoods (Some 2) (SessionLocal springfield)) = Ok l
            /\ forall n, In n l <-> In n (neighborhoods springfield) /\ Neighborhood.city_id n = 2.
Proof.
  refine (proj1 (proj1 (list_children_of_stored_parent springfield _)
                   (City.mk 2 "Shelbyville" None None) _)).
  - concrete_store.
  - simpl; auto.
Defined.

(** ** Round trips *)

Lemma find_new_row {A} (id : A -> Z) (l : list A) (r : A) :
  id r = next_rowid (map id l) -> find (fun x => id x =? id r) (l ++ [r]) = Some r.
Proof.
  intros Hr.
  assert (H : forall x, In x l -> id x <> id r)
    by (intros x Hx; rewrite Hr; now apply next_rowid_new).
  clear Hr; induction l as [|a l IH]; simpl.
  - now rewrite Z.eqb_refl.
  - destruct (Z.eqb_spec (id a) (id r)) as [E|_]; [now apply H in E; [|left]|].
    apply IH; intros x Hx; apply H; now right.
Qed.

Lemma find_replaced_row {A} (id : A -> Z) (l : list A) (i : Z) (c row : A) :
  find (fun x => id x =? i) l = Some c -> id row = i ->
  find (fun x => id x =? i) (map (fun x => if id x =? id c then row else x) l) = Some row.
Proof.
  intros Hf Hrow; pose proof (find_id_In _ _ _ _ Hf) as [_ Hc]; rewrite Hc.
  clear Hc; induction l as [|a l IH]; simpl in *; [discriminate|].
  destruct (Z.eqb_spec (id a) i) as [E|E].
  - now rewrite Hrow, Z.eqb_refl.
  - apply Z.eqb_neq in E; rewrite E; now apply IH.
Qed.

Lemma replaced_row_others {A} (id : A -> Z) (l : list A) (row x : A) :
  id x <> id row ->
  (In x (map (fun y => if id y =? id row then row else y) l) <-> In x l).
Proof.
  intros Hne; split.
  - intros H; apply replaced_row_member in H; destruct H as [[-> _]|[H _]]; tauto.
  - intros H; apply in_map_iff; exists x; split; [|assumption].
    apply Z.eqb_neq in Hne; now rewrite Hne.
Qed.

Ltac listed := eexists; split; [reflexivity|]; simpl;
  rewrite order_by_perm; symmetry; apply Permutation_cons_append.

(** X11: what a create operation has committed can be read back: in a new
    session [session.get] on the returned id gives the returned entity, and
    the unfiltered list holds it next to the rows of before, each once. *)
Theorem create_then_read :
  (forall db name state country,
      match get_session None (block (create_city name state country)) db with
      | (s, Completed r) =>
          let after := SessionLocal (committed s) in
          snd (get_city (City.id r) after) = Ok (Some r)
          /\ exists l, snd (list_cities after) = Ok l /\ Permutation l (r :: cities db)
      | (s, Raised _) => committed s = db
      | (_, Returned _) => False
      end)
  /\ (forall db name city_id,
      match get_session None (block (create_neighborhood name city_id)) db with
      | (s, Completed r) =>
          let after := SessionLocal (committed s) in
          snd (get_neighborhood (Neighborhood.id r) after) = Ok (Some r)
          /\ exists l, snd (list_neighborhoods None after) = Ok l
                       /\ Permutation l (r :: neighborhoods db)
      | (s, Raised _) => committed s = db
      | (_, Returned _) => False
      end)
  /\ (forall db name neighborhood_id,
      match get_session None (block (create_street name neighborhood_id)) db with
      | (s, Completed r) =>
          let after := SessionLocal (committed s) in
          snd (get_street (Street.id r) after) = Ok (Some r)
          /\ exists l, snd (list_streets None after) = Ok l /\ Permutation l (r :: streets db)
      | (s, Raised _) => committed s = db
      | (_, Returned _) => False
      end)
  /\ (forall db name city_id address,
      match get_session None (block (create_police_station name city_id address)) db with
      | (s, Completed r) =>
          let after := SessionLocal (committed s) in
          snd (get_police_station (PoliceStation.id r) after) = Ok (Some r)
          /\ exists l, snd (list_police_stations None after) = Ok l
                       /\ Permutation l (r :: police_stations db)
      | (s, Raised _) => committed s = db
      | (_, Returned _) => False
      end).
Proof.
  repeat match goal with |- _ /\ _ => split end; intros.
  - rewrite create_city_run; unit_of_work_cases; [|listed].
    unfold get_city, select; cbn [snd tx SessionLocal cities neighborhoods streets police_stations];
      f_equal; apply (find_new_row City.id _ (City.mk _ _ _ _)); reflexivity.
  - rewrite create_neighborhood_run; unit_of_work_cases; [|listed].
    unfold get_neighborhood, select; cbn [snd tx SessionLocal cities neighborhoods streets police_stations];
      f_equal; apply (find_new_row Neighborhood.id _ (Neighborhood.mk _ _ _)); reflexivity.
  - rewrite create_street_run; unit_of_work_cases; [|listed].
    unfold get_street, select; cbn [snd tx SessionLocal cities neighborhoods streets police_stations];
      f_equal; apply (find_new_row Street.id _ (Street.mk _ _ _)); reflexivity.
  - rewrite create_police_station_run; unit_of_work_cases; [|listed].
    unfold get_police_station, select; cbn [snd tx SessionLocal cities neighborhoods streets police_stations];
      f_equal; apply (find_new_row PoliceStation.id _ (PoliceStation.mk _ _ _ _)); reflexivity.
Qed.

(** X12: what an update operation has committed can be read back, and it
    touched nothing else: in a new session [session.get] on the id gives the
    returned entity, the rows of the table under other ids are the ones of
    before, and the other three tables are unchanged. *)
Theorem update_then_read :
  (forall db i name state country,
      match get_session None (block (update_city i name state country)) db with
      | (s, Completed r) =>
          snd (get_city i (SessionLocal (committed s))) = Ok (Some r)
          /\ (forall x, City.id x <> i -> (In x (cities (committed s)) <-> In x (cities db)))
          /\ neighborhoods (committed s) = neighborhoods db
          /\ streets (committed s) = streets db
          /\ police_stations (committed s) = police_stations db
      | (s, Raised _) => committed s = db
      | (_, Returned _) => False
      end)
  /\ (forall db i name city_id,
      match get_session None (block (update_neighborhood i name city_id)) db with
      | (s, Completed r) =>
          snd (get_neighborhood i (SessionLocal (committed s))) = Ok (Some r)
          /\ (forall x, Neighborhood.id x <> i ->
                        (In x (neighborhoods (committed s)) <-> In x (neighborhoods db)))
          /\ cities (committed s) = cities db
          /\ streets (committed s) = streets db
          /\ police_stations (committed s) = police_stations db
      | (s, Raised _) => committed s = db
      | (_, Returned _) => False
      end)
  /\ (forall db i name neighborhood_id,
      match get_session None (block (update_street i name neighborhood_id)) db with
      | (s, Completed r) =>
          snd (get_street i (SessionLocal (committed s))) = Ok (Some r)
          /\ (forall x, Street.id x <> i -> (In x (streets (committed s)) <-> In x (streets db)))
          /\ cities (committed s) = cities db
          /\ neighborhoods (committed s) = neighborhoods db
          /\ police_stations (committed s) = police_stations db
      | (s, Raised _) => committed s = db
      | (_, Returned _) => False
      end)
  /\ (forall db i name city_id address,
      match get_session None (block (update_police_station i name city_id address)) db with
      | (s, Completed r) =>
          snd (get_police_station i (SessionLocal (committed s))) = Ok (Some r)
          /\ (forall x, PoliceStation.id x <> i ->
                        (In x (police_stations (committed s)) <-> In x (police_stations db)))
          /\ cities (committed s) = cities db
          /\ neighborhoods (committed s) = neighborhoods db
          /\ streets (committed s) = streets db
      | (s, Raised _) => committed s = db
      | (_, Returned _) => False
      end).
Proof.
  repeat match goal with |- _ /\ _ => split end; intros.
  - rewrite update_city_run; destruct (find _ _) as [c|] eqn:Hf; [|reflexivity].
    pose proof (find_id_In _ _ _ _ Hf) as [_ Hc]; cbv zeta.
    destruct (existsb _ _); [reflexivity|].
    cbn [committed committed_as cities neighborhoods streets police_stations].
    split; [unfold get_city, select;
            cbn [snd tx SessionLocal cities neighborhoods streets police_stations];
            f_equal; apply (find_replaced_row City.id _ _ _ (City.mk (City.id c) _ _ _) Hf Hc)|].
    split; [|repeat split].
    intros x Hx; apply (replaced_row_others City.id _ (City.mk (City.id c) _ _ _));
      simpl; congruence.
  - rewrite update_neighborhood_run; destruct (find _ _) as [c|] eqn:Hf; [|reflexivity].
    pose proof (find_id_In _ _ _ _ Hf) as [_ Hc]; cbv zeta.
    destruct (existsb _ _); [reflexivity|]; destruct (has_city _ _); [|reflexivity].
    cbn [committed committed_as cities neighborhoods streets police_stations].
    split; [unfold get_neighborhood, select;
            cbn [snd tx SessionLocal cities neighborhoods streets police_stations];
            f_equal; apply (find_replaced_row Neighborhood.id _ _ _ (Neighborhood.mk (Neighborhood.id c) _ _) Hf Hc)|].
    split; [|repeat split].
    intros x Hx;
      apply (replaced_row_others Neighborhood.id _ (Neighborhood.mk (Neighborhood.id c) _ _));
      simpl; congruence.
  - rewrite update_street_run; destruct (find _ _) as [c|] eqn:Hf; [|reflexivity].
    pose proof (find_id_In _ _ _ _ Hf) as [_ Hc]; cbv zeta.
    destruct (existsb _ _); [reflexivity|]; destruct (has_neighborhood _ _); [|reflexivity].
    cbn [committed committed_as cities neighborhoods streets police_stations].
    split; [unfold get_street, select;
            cbn [snd tx SessionLocal cities neighborhoods streets police_stations];
            f_equal; apply (find_replaced_row Street.id _ _ _ (Street.mk (Street.id c) _ _) Hf Hc)|].
    split; [|repeat split].
    intros x Hx; apply (replaced_row_others Street.id _ (Street.mk (Street.id c) _ _));
      simpl; congruence.
  - rewrite update_police_station_run; destruct (find _ _) as [c|] eqn:Hf; [|reflexivity].
    pose proof (find_id_In _ _ _ _ Hf) as [_ Hc]; cbv zeta.
    destruct (existsb _ _); [reflexivity|]; destruct (fk_city_opt _ _); [|reflexivity].
    cbn [committed committed_as cities neighborhoods streets police_stations].
    split; [unfold get_police_station, select;
            cbn [snd tx SessionLocal cities neighborhoods streets police_stations];
            f_equal; apply (find_replaced_row PoliceStation.id _ _ _ (PoliceStation.mk (PoliceStation.id c) _ _ _) Hf Hc)|].
    split; [|repeat split].
    intros x Hx;
      apply (replaced_row_others PoliceStation.id _
               (PoliceStation.mk (PoliceStation.id c) _ _ _));
      simpl; congruence.
Qed.

(** ** Saving an entity as it is *)

Lemma same_id_same_row {A} (id : A -> Z) (l : list A) (a b : A) :
  NoDup (map id l) -> In a l -> In b l -> id a = id b -> a = b.
Proof.
  induction l as [|x l IH]; simpl; [contradiction|].
  intros Hn Ha Hb Hid; inversion Hn as [|? ? Hx Hl]; subst.
  destruct Ha as [->|Ha], Hb as [->|Hb]; auto.
  - exfalso; apply Hx; rewrite Hid; now apply in_map.
  - exfalso; apply Hx; rewrite <- Hid; now apply in_map.
Qed.

Lemma find_own_row {A} (id : A -> Z) (l : list A) (c : A) :
  NoDup (map id l) -> In c l -> find (fun x => id x =? id c) l = Some c.
Proof.
  intros Hn Hin; destruct (find_id_some id l (id c) c Hin eq_refl) as (y & Hy).
  rewrite Hy; f_equal; apply find_id_In in Hy; destruct Hy as [Hy Hid].
  now apply (same_id_same_row id l).
Qed.

Lemma replace_by_itself {A} (id : A -> Z) (l : list A) (c : A) :
  NoDup (map id l) -> In c l -> map (fun x => if id x =? id c then c else x) l = l.
Proof.
  intros Hn Hin; rewrite <- (map_id l) at 2; apply map_ext_in; intros x Hx.
  destruct (Z.eqb_spec (id x) (id c)); [|reflexivity].
  symmetry; now apply (same_id_same_row id l).
Qed.

Lemma existsb_none {A} (f : A -> bool) (l : list A) :
  (forall x, In x l -> f x = false) -> existsb f l = false.
Proof.
  intros H; induction l as [|x l IH]; simpl; [reflexivity|].
  rewrite (H x) by now left. apply IH; intros y Hy; apply H; now right.
Qed.

Lemma no_other_collides {A} (id : A -> Z) (uq : A -> A -> bool) (l : list A) (c : A) :
  unique_rows id uq l -> In c l ->
  existsb (fun x => negb (id x =? id c) && uq c x) l = false.
Proof.
  intros Hu Hin; apply existsb_none; intros x Hx.
  destruct (Z.eqb_spec (id x) (id c)) as [|Hne]; [reflexivity|]; simpl.
  destruct (uq c x) eqn:E; [|reflexivity].
  exfalso; apply Hne; symmetry; now apply (Hu c x).
Qed.

(** X13: in a store whose primary keys, unique constraints and references
    hold, saving an entity with the values it already has (as text that
    normalises to the stored text) succeeds, returns the entity and leaves
    the store exactly as it was: an entity never collides with itself. *)
Theorem update_unchanged (db : DB) :
  primary_keys db -> uniques db -> references db ->
  (forall c name state country, In c (cities db) ->
     Py.strip name = City.name c -> norm_opt state = City.state c ->
     norm_opt country = City.country c ->
     get_session None (block (update_city (City.id c) name state country)) db
     = (committed_as db, Completed c))
  /\ (forall n name, In n (neighborhoods db) -> Py.strip name = Neighborhood.name n ->
      get_session None
        (block (update_neighborhood (Neighborhood.id n) name (Neighborhood.city_id n))) db
      = (committed_as db, Completed n))
  /\ (forall x name, In x (streets db) -> Py.strip name = Street.name x ->
      get_session None
        (block (update_street (Street.id x) name (Street.neighborhood_id x))) db
      = (committed_as db, Completed x))
  /\ (forall p name address, In p (police_stations db) ->
      Py.strip name = PoliceStation.name p -> norm_opt address = PoliceStation.address p ->
      get_session None
        (block (update_police_station (PoliceStation.id p) name (PoliceStation.city_id p)
                                      address)) db
      = (committed_as db, Completed p)).
Proof.
  intros ((Kc & _) & (Kn & _) & (Ks & _) & (Kp & _)) (Uc & Un & Us & Up) (Rn & Rs & Rp).
  repeat match goal with |- _ /\ _ => split end.
  - intros c name state country Hin H1 H2 H3.
    rewrite update_city_run, (find_own_row City.id _ _ Kc Hin); cbv zeta.
    rewrite H1, H2, H3.
    replace (City.mk (City.id c) (City.name c) (City.state c) (City.country c)) with c
      by (destruct c; reflexivity).
    rewrite (no_other_collides City.id _ _ _ Uc Hin), (replace_by_itself City.id _ _ Kc Hin).
    now destruct db.
  - intros n name Hin H1.
    rewrite update_neighborhood_run, (find_own_row Neighborhood.id _ _ Kn Hin); cbv zeta.
    rewrite H1.
    replace (Neighborhood.mk (Neighborhood.id n) (Neighborhood.name n)
                             (Neighborhood.city_id n)) with n by (destruct n; reflexivity).
    rewrite (no_other_collides Neighborhood.id _ _ _ Un Hin), (Rn n Hin),
      (replace_by_itself Neighborhood.id _ _ Kn Hin).
    now destruct db.
  - intros x name Hin H1.
    rewrite update_street_run, (find_own_row Street.id _ _ Ks Hin); cbv zeta.
    rewrite H1.
    replace (Street.mk (Street.id x) (Street.name x) (Street.neighborhood_id x)) with x
      by (destruct x; reflexivity).
    rewrite (no_other_collides Street.id _ _ _ Us Hin), (Rs x Hin),
      (replace_by_itself Street.id _ _ Ks Hin).
    now destruct db.
  - intros p name address Hin H1 H2.
    rewrite update_police_station_run, (find_own_row PoliceStation.id _ _ Kp Hin); cbv zeta.
    rewrite H1, H2.
    replace (PoliceStation.mk (PoliceStation.id p) (PoliceStation.name p)
                              (PoliceStation.city_id p) (PoliceStation.address p))
      with p by (destruct p; reflexivity).
    rewrite (no_other_collides PoliceStation.id _ _ _ Up Hin), (Rp p Hin),
      (replace_by_itself PoliceStation.id _ _ Kp Hin).
    now destruct db.
Qed.

Lemma update_unchanged_witness :
  get_session None (block (update_city 1 " Springfield" (Some "IL "%string)
                                       (Some "US"%string))) springfield
  = (committed_as springfield,
     Completed (City.mk 1 "Springfield" (Some "IL"%string) (Some "US"%string))).
Proof.
  refine (proj1 (update_unchanged springfield _ _ _)
            (City.mk 1 "Springfield"%string (Some "IL"%string) (Some "US"%string))
            " Springfield"%string (Some "IL "%string) (Some "US"%string) _ _ _ _);
    try reflexivity; try (simpl; auto; fail); concrete_store.
Defined.

(** ** Constraints that refuse a write *)

Lemma existsb_witness {A} (f : A -> bool) (l : list A) (x : A) :
  In x l -> f x = true -> existsb f l = true.
Proof. intros Hin Hf; apply existsb_exists; now exists x. Qed.









(** ** What a delete removes, and what it leaves *)

(** X17: deleting a street, or a police station, that exists removes the
    rows with that id from its table and nothing else: the other tables are
    the ones of before. *)
Theorem delete_leaf_exact (db : DB) (i : Z) :
  ((exists x, In x (streets db) /\ Street.id x = i) ->
   get_session None (block (delete_street i)) db
   = (committed_as (mkDB (cities db) (neighborhoods db)
                         (filter (fun x => negb (Street.id x =? i)) (streets db))
                         (police_stations db)),
      Completed tt))
  /\ ((exists p, In p (police_stations db) /\ PoliceStation.id p = i) ->
      get_session None (block (delete_police_station i)) db
      = (committed_as (mkDB (cities db) (neighborhoods db) (streets db)
                            (filter (fun p => negb (PoliceStation.id p =? i))
                                    (police_stations db))),
         Completed tt)).
Proof.
  split; intros (x & Hin & Hid).
  - destruct (find_id_some Street.id _ _ _ Hin Hid) as (y & Hf).
    pose proof (find_id_In _ _ _ _ Hf) as [_ Hy].
    rewrite delete_street_run, Hf, Hy; reflexivity.
  - destruct (find_id_some PoliceStation.id _ _ _ Hin Hid) as (y & Hf).
    pose proof (find_id_In _ _ _ _ Hf) as [_ Hy].
    rewrite delete_police_station_run, Hf, Hy; reflexivity.
Qed.

Lemma delete_leaf_exact_witness :
  get_session None (block (delete_street 2)) springfield
  = (committed_as (mkDB (cities springfield) (neighborhoods springfield)
                        (filter (fun x => negb (Street.id x =? 2)) (streets springfield))
                        (police_stations springfield)),
     Completed tt)
  /\ get_session None (block (delete_police_station 3)) springfield
     = (committed_as (mkDB (cities springfield) (neighborhoods springfield)
                           (streets springfield)
                           (filter (fun p => negb (PoliceStation.id p =? 3))
                                   (police_stations springfield))),
        Completed tt).
Proof.
  split.
  - apply (proj1 (delete_leaf_exact springfield 2)).
    exists (Street.mk 2 "Elm St" 2); simpl; auto.
  - apply (proj2 (delete_leaf_exact springfield 3)).
    exists (PoliceStation.mk 3 "Mobile" None None); simpl; auto.
Defined.

Lemma filter_all {A} (f : A -> bool) (l : list A) :
  (forall x, In x l -> f x = true) -> filter f l = l.
Proof.
  induction l as [|a l IH]; simpl; intros H; [reflexivity|].
  rewrite (H a) by now left. f_equal; apply IH; intros x Hx; apply H; now right.
Qed.

Lemma filter_twice {A} (f g : A -> bool) (l : list A) :
  filter f (filter g l) = filter (fun x => g x && f x) l.
Proof.
  induction l as [|a l IH]; simpl; [reflexivity|].
  destruct (g a); simpl; [destruct (f a)|]; now rewrite IH.
Qed.

Lemma filter_same {A} (f g : A -> bool) (l : list A) :
  (forall x, In x l -> f x = g x) -> filter f l = filter g l.
Proof.
  induction l as [|a l IH]; simpl; intros H; [reflexivity|].
  rewrite (H a) by now left.
  destruct (g a); [f_equal|]; apply IH; intros x Hx; apply H; now right.
Qed.

(** The DELETEs of a list of streets, one by one. *)
Lemma flush_street_rows (L : list Street.t) :
  forall db,
    flush_rows (map (fun x => (Streets, Street.id x)) L) db
    = mkDB (cities db) (neighborhoods db)
           (filter (fun x => negb (existsb (fun y => Street.id x =? Street.id y) L))
                   (streets db))
           (police_stations db).
Proof.
  induction L as [|a L IH]; intros db.
  - simpl; rewrite filter_all by reflexivity; now destruct db.
  - rewrite map_cons, flush_rows_cons, IH; simpl.
    rewrite filter_twice; f_equal; apply filter_same; intros x _.
    now rewrite negb_orb.
Qed.

Lemma flush_rows_app (d1 d2 : list (table * Z)) (db : DB) :
  flush_rows (d1 ++ d2) db = flush_rows d2 (flush_rows d1 db).
Proof. apply fold_left_app. Qed.

Lemma delete_order_neighborhood (db : DB) (n : Neighborhood.t) :
  delete_order (cascade_neighborhood db n)
  = map (fun x => (Streets, Street.id x))
        (filter (fun x => Street.neighborhood_id x =? Neighborhood.id n) (streets db))
    ++ [(Neighborhoods, Neighborhood.id n)].
Proof.
  unfold delete_order, cascade_neighborhood; simpl.
  set (S := filter _ (streets db)).
  assert (H1 : filter (is_table Streets) (map (fun x => (Streets, Street.id x)) S)
               = map (fun x => (Streets, Street.id x)) S)
    by (apply filter_all; intros r Hr; apply in_map_iff in Hr; now destruct Hr as (x & <- & _)).
  assert (H2 : forall t, t <> Streets ->
               filter (is_table t) (map (fun x => (Streets, Street.id x)) S) = []).
  { intros t Ht; apply filter_none; intros r Hr; apply in_map_iff in Hr.
    destruct Hr as (x & <- & _); destruct t; simpl; congruence. }
  rewrite H1, !H2 by discriminate. now rewrite app_nil_r.
Qed.

(** X18: in a store whose street ids are pairwise different, deleting a
    neighborhood that exists removes the neighborhood and exactly the streets
    that refer to it; cities, police stations and the streets of other
    neighborhoods are as before. *)
Theorem delete_neighborhood_exact (db : DB) (i : Z) :
  NoDup (map Street.id (streets db)) ->
  (exists n, In n (neighborhoods db) /\ Neighborhood.id n = i) ->
  get_session None (block (delete_neighborhood i)) db
  = (committed_as (mkDB (cities db)
                        (filter (fun n => negb (Neighborhood.id n =? i)) (neighborhoods db))
                        (filter (fun x => negb (Street.neighborhood_id x =? i)) (streets db))
                        (police_stations db)),
     Completed tt).
Proof.
  intros Hk (n0 & Hin0 & Hid0).
  destruct (find_id_some Neighborhood.id _ _ _ Hin0 Hid0) as (n & Hf).
  pose proof (find_id_In _ _ _ _ Hf) as [Hin Hid].
  rewrite delete_neighborhood_run, Hf, delete_order_neighborhood, flush_rows_app,
    flush_street_rows, Hid.
  unfold flush_rows; cbn [fold_left delete_row]; unfold has_neighborhood;
    cbn [cities neighborhoods streets police_stations].
  rewrite (existsb_witness _ _ n Hin) by now apply Z.eqb_eq.
  do 3 f_equal. rewrite filter_twice; apply filter_same; intros x Hx.
  destruct (Z.eqb_spec (Street.neighborhood_id x) i) as [E|E]; simpl;
    [apply andb_false_r|rewrite andb_true_r].
  apply negb_true_iff, existsb_none; intros y Hy; apply filter_In in Hy.
  destruct Hy as [Hy Hyn]; apply Z.eqb_eq in Hyn; apply Z.eqb_neq; intros Hxy.
  assert (x = y) by now apply (same_id_same_row Street.id (streets db)).
  congruence.
Qed.

Lemma delete_neighborhood_exact_witness :
  get_session None (block (delete_neighborhood 1)) springfield
  = (committed_as (mkDB (cities springfield)
                        (filter (fun n => negb (Neighborhood.id n =? 1))
                                (neighborhoods springfield))
                        (filter (fun x => negb (Street.neighborhood_id x =? 1))
                                (streets springfield))
                        (police_stations springfield)),
     Completed tt).
Proof.
  apply (delete_neighborhood_exact springfield 1).
  - simpl; repeat constructor; simpl; intuition discriminate.
  - exists (Neighborhood.mk 1 "Downtown" 1); simpl; auto.
Defined.

Lemma delete_row_keeps_city r db c :
  In c (cities db) -> r <> (Cities, City.id c) -> In c (cities (delete_row r db)).
Proof.
  intros Hin Hr; row_cases r; try assumption.
  apply filter_In; split; [assumption|].
  destruct (Z.eqb_spec (City.id c) i); [congruence | reflexivity].
Qed.

Lemma delete_row_keeps_neighborhood r db n :
  In n (neighborhoods db) -> r <> (Neighborhoods, Neighborhood.id n) ->
  (forall i, r = (Cities, i) -> Neighborhood.city_id n <> i) ->
  In n (neighborhoods (delete_row r db)).
Proof.
  intros Hin Hr Hc; row_cases r; try assumption;
    (apply filter_In; split; [assumption|]).
  - apply negb_true_iff, Z.eqb_neq; now apply Hc.
  - destruct (Z.eqb_spec (Neighborhood.id n) i); [congruence | reflexivity].
Qed.

Lemma delete_row_keeps_street r db x :
  In x (streets db) -> r <> (Streets, Street.id x) ->
  (forall i, r = (Neighborhoods, i) -> Street.neighborhood_id x <> i) ->
  (forall i n, r = (Cities, i) -> In n (neighborhoods db) -> Neighborhood.city_id n = i ->
               Neighborhood.id n <> Street.neighborhood_id x) ->
  In x (streets (delete_row r db)).
Proof.
  intros Hin Hr Hn Hc; row_cases r; try assumption;
    (apply filter_In; split; [assumption|]).
  - apply negb_true_iff, existsb_none; intros n Hn'; apply filter_In in Hn'.
    destruct Hn' as [Hn' Hci]; apply Z.eqb_eq in Hci; apply Z.eqb_neq.
    now apply (Hc i n).
  - apply negb_true_iff, Z.eqb_neq; now apply Hn.
  - destruct (Z.eqb_spec (Street.id x) i); [congruence | reflexivity].
Qed.

Lemma flush_rows_keeps_city D :
  forall db c, In c (cities db) -> ~ In (Cities, City.id c) D ->
               In c (cities (flush_rows D db)).
Proof.
  induction D as [|r D IH]; intros db c Hin Hr; [assumption|].
  rewrite flush_rows_cons; apply IH.
  - apply delete_row_keeps_city; [assumption|]; intros ->; apply Hr; now left.
  - intros H; apply Hr; now right.
Qed.

Lemma flush_rows_keeps_neighborhood D :
  forall db n, In n (neighborhoods db) -> ~ In (Neighborhoods, Neighborhood.id n) D ->
  (forall i, In (Cities, i) D -> Neighborhood.city_id n <> i) ->
  In n (neighborhoods (flush_rows D db)).
Proof.
  induction D as [|r D IH]; intros db n Hin Hr Hc; [assumption|].
  rewrite flush_rows_cons; apply IH.
  - apply delete_row_keeps_neighborhood; [assumption | |].
    + intros ->; apply Hr; now left.
    + intros i ->; apply Hc; now left.
  - intros H; apply Hr; now right.
  - intros i H; apply Hc; now right.
Qed.

Lemma flush_rows_keeps_street D :
  forall db x, In x (streets db) -> ~ In (Streets, Street.id x) D ->
  (forall i, In (Neighborhoods, i) D -> Street.neighborhood_id x <> i) ->
  (forall i n, In (Cities, i) D -> In n (neighborhoods db) -> Neighborhood.city_id n = i ->
               Neighborhood.id n <> Street.neighborhood_id x) ->
  In x (streets (flush_rows D db)).
Proof.
  induction D as [|r D IH]; intros db x Hin Hr Hn Hc; [assumption|].
  rewrite flush_rows_cons; apply IH.
  - apply delete_row_keeps_street; [assumption | | |].
    + intros ->; apply Hr; now left.
    + intros i ->; apply Hn; now left.
    + intros i n ->; apply Hc; now left.
  - intros H; apply Hr; now right.
  - intros i H; apply Hn; now right.
  - intros i n H Hn'; apply Hc; [now right|].
    now apply delete_row_neighborhoods in Hn'.
Qed.

Section CascadeOnly.
Variables (db : DB) (c : City.t).

Lemma cascade_city_neighborhoods_only (j : Z) :
  In (Neighborhoods, j) (cascade_city db c) ->
  exists n, In n (neighborhoods db) /\ Neighborhood.city_id n = City.id c
            /\ Neighborhood.id n = j.
Proof.
  unfold cascade_city; simpl; rewrite in_app_iff, in_flat_map, in_map_iff.
  intros [H | [(n & Hn & [H | H]) | (q & H & _)]]; try congruence.
  - apply filter_In in Hn; destruct Hn as [Hn Hc]; apply Z.eqb_eq in Hc.
    exists n; repeat split; congruence.
  - apply in_map_iff in H; destruct H as (x & H & _); congruence.
Qed.

Lemma cascade_city_streets_only (j : Z) :
  In (Streets, j) (cascade_city db c) ->
  exists n x, In n (neighborhoods db) /\ Neighborhood.city_id n = City.id c
              /\ In x (streets db) /\ Street.neighborhood_id x = Neighborhood.id n
              /\ Street.id x = j.
Proof.
  unfold cascade_city; simpl; rewrite in_app_iff, in_flat_map, in_map_iff.
  intros [H | [(n & Hn & [H | H]) | (q & H & _)]]; try congruence.
  apply filter_In in Hn; destruct Hn as [Hn Hc]; apply Z.eqb_eq in Hc.
  apply in_map_iff in H; destruct H as (x & H & Hx); apply filter_In in Hx.
  destruct Hx as [Hx Hxn]; apply Z.eqb_eq in Hxn.
  exists n, x; repeat split; congruence.
Qed.

End CascadeOnly.

(** X19: in a store whose ids are pairwise different, deleting a city
    leaves the rest in place: every other city, every neighborhood of
    another city, every street whose neighborhood is not in the deleted
    city and every police station of another city or of none is in the store
    afterwards, unchanged. *)
Theorem delete_city_leaves_others (db : DB) (cid : Z) :
  primary_keys db ->
  (exists c, In c (cities db) /\ City.id c = cid) ->
  let after := store_after (get_session None (block (delete_city cid)) db) in
  (forall c, In c (cities db) -> City.id c <> cid -> In c (cities after))
  /\ (forall n, In n (neighborhoods db) -> Neighborhood.city_id n <> cid ->
      In n (neighborhoods after))
  /\ (forall x, In x (streets db) ->
      (forall n, In n (neighborhoods db) -> Neighborhood.id n = Street.neighborhood_id x ->
                 Neighborhood.city_id n <> cid) ->
      In x (streets after))
  /\ (forall p, In p (police_stations db) -> PoliceStation.city_id p <> Some cid ->
      In p (police_stations after)).
Proof.
  intros (_ & (Kn & _) & (Ks & _) & (Kp & _)) Hc.
  apply city_found in Hc; destruct Hc as (c & Hf & <-).
  rewrite (delete_city_run _ _ _ Hf); unfold store_after; cbv zeta; cbn [fst committed].
  repeat split.
  - intros c' Hin Hne; apply flush_rows_keeps_city; [assumption|].
    intros H; apply delete_order_In, cascade_city_only in H; congruence.
  - intros n Hin Hne; apply flush_rows_keeps_neighborhood; [assumption | |].
    + intros H; apply delete_order_In, cascade_city_neighborhoods_only in H.
      destruct H as (n0 & Hn0 & Hc0 & Hid).
      assert (n0 = n) by now apply (same_id_same_row Neighborhood.id (neighborhoods db)).
      congruence.
    + intros i H; apply delete_order_In, cascade_city_only in H; congruence.
  - intros x Hin Hx; apply flush_rows_keeps_street; [assumption | | |].
    + intros H; apply delete_order_In, cascade_city_streets_only in H.
      destruct H as (n0 & x0 & Hn0 & Hc0 & Hx0 & Hxn & Hid).
      assert (x0 = x) by now apply (same_id_same_row Street.id (streets db)).
      subst x0; now apply (Hx n0).
    + intros i H; apply delete_order_In, cascade_city_neighborhoods_only in H.
      destruct H as (n0 & Hn0 & Hc0 & Hid) ; intros E; apply (Hx n0); congruence.
    + intros i n H Hn' Hci; apply delete_order_In, cascade_city_only in H.
      intros E; apply (Hx n); congruence.
  - intros p Hin Hne; apply flush_rows_keeps_police_station; [assumption | |].
    + intros H; apply delete_order_In, cascade_city_police_stations_only in H.
      destruct H as (q & Hq & Hqc & Hid).
      assert (q = p) by now apply (same_id_same_row PoliceStation.id (police_stations db)).
      congruence.
    + intros i H; apply delete_order_In, cascade_city_only in H; congruence.
Qed.

Lemma delete_city_leaves_others_witness :
  let after := store_after (get_session None (block (delete_city 1)) springfield) in
  (forall c, In c (cities springfield) -> City.id c <> 1 -> In c (cities after))
  /\ (forall n, In n (neighborhoods springfield) -> Neighborhood.city_id n <> 1 ->
      In n (neighborhoods after))
  /\ (forall x, In x (streets springfield) ->
      (forall n, In n (neighborhoods springfield) ->
                 Neighborhood.id n = Street.neighborhood_id x ->
                 Neighborhood.city_id n <> 1) ->
      In x (streets after))
  /\ (forall p, In p (police_stations springfield) -> PoliceStation.city_id p <> Some 1 ->
      In p (police_stations after)).
Proof.
  apply (delete_city_leaves_others springfield 1).
  - concrete_store.
  - exists (City.mk 1 "Springfield" (Some "IL"%string) (Some "US"%string)).
    split; [simpl; auto | reflexivity].
Defined.

(** ** Scopes that only read *)

(** X20: a [get_session] scope that only lists or looks up, as the refresh
    and edit handlers open them, leaves the store as it was, whether the
    commit at its end succeeds or not. *)
Theorem reading_changes_nothing (io : option exn) (db : DB) :
  store_after (get_session io (block list_cities) db) = db
  /\ (forall f, store_after (get_session io (block (list_neighborhoods f)) db) = db)
  /\ (forall f, store_after (get_session io (block (list_streets f)) db) = db)
  /\ (forall f, store_after (get_session io (block (list_police_stations f)) db) = db)
  /\ (forall i, store_after (get_session io (block (get_city i)) db) = db)
  /\ (forall i, store_after (get_session io (block (get_neighborhood i)) db) = db)
  /\ (forall i, store_after (get_session io (block (get_street i)) db) = db)
  /\ (forall i, store_after (get_session io (block (get_police_station i)) db) = db).
Proof.
  repeat match goal with |- _ /\ _ => split end; intros;
    unfold store_after, get_session, block, list_cities, list_neighborhoods, list_streets,
      list_police_stations, get_city, get_neighborhood, get_street, get_police_station,
      bind, select, expunge_all, ret, commit; cbn [fst snd];
    destruct io as [e|]; try destruct (is_Exception e); reflexivity.
Qed.
